(** * Tennis match predictor: dataset acquisition, merge and head-to-head query

    A shallow embedding of [tennis_match_predictor-v12.py] (and of the file
    selection of [tennis_match_predictor-app.py]).  Both programs are
    straight-line Streamlit scripts: they talk to the file system, the
    network, pandas and the user interface, wrap some of those calls in
    [try/except Exception], and stop early with [st.stop()].

    The embedding keeps that shape.  A script is a finite tree of external
    calls ([event]s) whose continuation receives the call's answer; Python
    exceptions and [st.stop()] are terminal nodes; [try_catch] is
    [try: ... except Exception as e: ...].  A script is run against an
    arbitrary environment (a handler with its own state), and the run records
    every call together with its answer.

    Of [tennis_match_predictor-v12.py] the script is embedded from line 53
    to its end; the page title and text and the copying of the Kaggle
    credentials into the process environment (lines 25-26 and 45-47) come
    before and are left out.  Cells, file names and messages are byte
    strings; a float that the script only sleeps for or prints is the exact
    rational it stands for. *)

From Stdlib Require Import QArith.
From stdpp Require Import gmap strings list pretty sorting.

Local Open Scope string_scope.

(** ** Exceptions and results *)

(** A Python exception that derives from [Exception], carried as the text
    that [f"{e}"] renders. *)
Definition exn : Type := string.

Inductive result (A : Type) : Type :=
| Ok (a : A)
| Raise (e : exn).
Arguments Ok {A} a.
Arguments Raise {A} e.

#[global] Instance result_ret : MRet result := @Ok.
#[global] Instance result_bind : MBind result :=
  fun A B f r => match r with Ok a => f a | Raise e => Raise e end.

(** ** Tables

    A data frame: its column labels and its rows.  A row maps a column label
    to the text of its cell; a label with no binding is a null cell (NaN),
    which is also what [pd.concat] leaves in the columns a source table does
    not have. *)
Record table : Type := Table {
  columns : list string;
  rows : list (gmap string string)
}.

(** ** External calls *)

(** File-system and process operations that return nothing. *)
Inductive fs_op : Type :=
| WriteFile (path content : string)      (* open(path, "wb") ... f.write(content) *)
| ZipOpen (path : string)                (* zipfile.ZipFile(path, 'r') *)
| ExtractAll (zip extract_path : string) (* zipfile_obj.extractall(extract_path) *)
| Rmtree (path : string)                 (* shutil.rmtree(path, onerror=remove_readonly) *)
| Rename (src dst : string)              (* os.rename(src, dst) *)
| MakeDirs (path : string)               (* os.makedirs(path, exist_ok=True) *)
| RunKaggle (dataset dir : string).      (* subprocess.run(["kaggle", ...], check=True) *)

(** The Streamlit display calls. *)
Inductive st_kind : Type := Warning | Error | Info | Success | Spinner.

#[global] Instance st_kind_eq_dec : EqDecision st_kind.
Proof. solve_decision. Defined.

Inductive event : Type -> Type :=
| PathExists (path : string) : event bool                  (* os.path.exists *)
| ListDir (path : string) : event (result (list string))   (* os.listdir *)
| HttpGet (url : string) : event (result string)           (* requests.get(url).content *)
| Fs (op : fs_op) : event (result unit)
| Glob (pattern : string) : event (list string)            (* glob.glob *)
| ReadCsv (path : string) (nrows : option nat)
    : event (result table)                                 (* pd.read_csv(path[, nrows=n]) *)
| Sleep (seconds : Q) : event unit                         (* time.sleep *)
| St (kind : st_kind) (msg : string) : event unit          (* st.warning, st.error, ... *)
| SelectBox (label : string) (options : list string) (index : nat)
    : event (option string)                                (* st.selectbox *)
| Button (label : string) : event bool                     (* st.button *)
| XgbFit (X_columns : list string) (X : list (list bool)) (y : list bool)
    : event (result unit)                                  (* XGBClassifier(...).fit(X, y) *)
| XgbPredict (row : list (string * Z)) : event (result bool)      (* model.predict(test_input)[0] *)
| XgbPredictProba (row : list (string * Z)) : event (result (Q * Q)).
                                                           (* model.predict_proba(test_input)[0] *)

(** What a run records: each call with the answer the environment gave. *)
Inductive entry : Type :=
| LExists (path : string) (b : bool)
| LListDir (path : string) (r : result (list string))
| LHttpGet (url : string) (r : result string)
| LFs (op : fs_op) (r : result unit)
| LGlob (pattern : string) (files : list string)
| LReadCsv (path : string) (nrows : option nat) (r : result table)
| LSleep (seconds : Q)
| LSt (kind : st_kind) (msg : string)
| LSelectBox (label : string) (options : list string) (index : nat) (choice : option string)
| LButton (label : string) (b : bool)
| LXgbFit (X_columns : list string) (X : list (list bool)) (y : list bool) (r : result unit)
| LXgbPredict (row : list (string * Z)) (r : result bool)
| LXgbPredictProba (row : list (string * Z)) (r : result (Q * Q)).

Definition observe {X : Type} (e : event X) : X -> entry :=
  match e in event X return X -> entry with
  | PathExists p => LExists p
  | ListDir p => LListDir p
  | HttpGet u => LHttpGet u
  | Fs op => LFs op
  | Glob pat => LGlob pat
  | ReadCsv p n => LReadCsv p n
  | Sleep q => fun _ => LSleep q
  | St k m => fun _ => LSt k m
  | SelectBox l o i => LSelectBox l o i
  | Button l => LButton l
  | XgbFit c X y => LXgbFit c X y
  | XgbPredict r => LXgbPredict r
  | XgbPredictProba r => LXgbPredictProba r
  end.

(** ** Scripts *)

Inductive script (A : Type) : Type :=
| Ret (a : A)
| Throw (e : exn)      (* an exception deriving from Exception is propagating *)
| Halt                 (* st.stop(): a BaseException, no [except Exception] catches it *)
| Vis {X : Type} (e : event X) (k : X -> script A).
Arguments Ret {A} a.
Arguments Throw {A} e.
Arguments Halt {A}.
Arguments Vis {A X} e k.

Fixpoint bind {A B : Type} (p : script A) (f : A -> script B) : script B :=
  match p with
  | Ret a => f a
  | Throw e => Throw e
  | Halt => Halt
  | Vis e k => Vis e (fun x => bind (k x) f)
  end.

(** [try: p except Exception as e: handler e]. *)
Fixpoint try_catch {A : Type} (p : script A) (handler : exn -> script A) : script A :=
  match p with
  | Ret a => Ret a
  | Throw e => handler e
  | Halt => Halt
  | Vis e k => Vis e (fun x => try_catch (k x) handler)
  end.

(** The monad structure, for the [x ← p; q] and [p;; q] notations. *)
#[global] Instance script_ret : MRet script := @Ret.
#[global] Instance script_bind : MBind script := fun A B f p => bind p f.

(** A call that cannot raise. *)
Definition trigger {X : Type} (e : event X) : script X := Vis e Ret.

(** A call that returns or raises. *)
Definition call {X : Type} (e : event (result X)) : script X :=
  Vis e (fun r => match r with Ok x => Ret x | Raise ex => Throw ex end).

Definition st_warning (msg : string) : script unit := trigger (St Warning msg).
Definition st_error (msg : string) : script unit := trigger (St Error msg).
Definition st_info (msg : string) : script unit := trigger (St Info msg).
Definition st_success (msg : string) : script unit := trigger (St Success msg).
Definition st_spinner (msg : string) : script unit := trigger (St Spinner msg).
Definition st_stop {A : Type} : script A := Halt.

(** ** Running a script *)

Inductive outcome (A : Type) : Type :=
| Normal (a : A)       (* ran to its end *)
| Raised (e : exn)     (* an uncaught exception ended the run *)
| Stopped.             (* st.stop() ended the run *)
Arguments Normal {A} a.
Arguments Raised {A} e.
Arguments Stopped {A}.

Section Run.
Context {S : Type}.
(** The environment: how each call is answered, and what it does to the
    environment's own state. *)
Variable env : forall X : Type, event X -> S -> X * S.

Fixpoint run {A : Type} (p : script A) (s : S) : outcome A * S * list entry :=
  match p with
  | Ret a => (Normal a, s, [])
  | Throw e => (Raised e, s, [])
  | Halt => (Stopped, s, [])
  | Vis e k =>
      let '(x, s1) := env _ e s in
      let '(o, s2, t) := run (k x) s1 in
      (o, s2, observe e x :: t)
  end.

Definition result_of {A : Type} (p : script A) (s : S) : outcome A := (run p s).1.1.
Definition state_after {A : Type} (p : script A) (s : S) : S := (run p s).1.2.
Definition trace_of {A : Type} (p : script A) (s : S) : list entry := (run p s).2.
End Run.

(** ** Zip extraction with retries (v12, lines 34-42) *)

(** [for attempt in range(max_retries)]: the attempts still to make. *)
Fixpoint try_extract_loop (zipfile_obj extract_path : string) (attempts : list nat)
  : script bool :=
  match attempts with
  | [] => Ret false
  | attempt :: rest =>
      returned ← try_catch
        (call (Fs (ExtractAll zipfile_obj extract_path));; Ret true)
        (fun e =>
           st_warning ("Attempt " ++ pretty (attempt + 1)%nat
                       ++ " to extract zip failed: " ++ e);;
           trigger (Sleep (1.5 * inject_Z (Z.of_nat (attempt + 1))));;
           Ret false);
      if returned : bool then Ret true else try_extract_loop zipfile_obj extract_path rest
  end.

Definition try_extract_all (zipfile_obj extract_path : string) (max_retries : nat)
  : script bool :=
  try_extract_loop zipfile_obj extract_path (seq 0 max_retries).

(** Python's [not l] for a list. *)
Definition falsy {A : Type} (l : list A) : bool :=
  match l with [] => true | _ :: _ => false end.

(** ** Paths *)

(** [os.path.join a b] on a POSIX system, for two components. *)
Definition path_join (a b : string) : string :=
  if String.prefix "/" b then b
  else if bool_decide (a = "") then b
  else if String.prefix "/" (String.rev a) then a ++ b
  else a ++ "/" ++ b.

(** ** Primary source: download, extract, move into place (v12, lines 49-92) *)

Definition DATA_URL : string :=
  "https://github.com/JeffSackmann/tennis_atp/archive/refs/heads/master.zip".
Definition zipped_data_path : string := "cached_atp_dataset.zip".
Definition temp_dir : string := "_temp_tennis_data".
Definition extracted_dir : string := path_join temp_dir "tennis_atp-master".

(** Lines 56-59: the archive is fetched only when no cached copy exists. *)
Definition fetch_archive : script unit :=
  cached ← trigger (PathExists zipped_data_path);
  if cached : bool
  then Ret tt
  else content ← call (HttpGet DATA_URL);
       call (Fs (WriteFile zipped_data_path content)).

(** Lines 64-68. *)
Definition clean_temp : script unit :=
  tmp ← trigger (PathExists temp_dir);
  if tmp : bool
  then try_catch (call (Fs (Rmtree temp_dir)))
         (fun e => st_warning ("Failed to clean temp directory: " ++ e))
  else Ret tt.

(** Lines 74-84. *)
Definition move_into_place : script unit :=
  found ← trigger (PathExists extracted_dir);
  if found : bool
  then try_catch
         (old ← trigger (PathExists "atp_data");
          (if old : bool then call (Fs (Rmtree "atp_data")) else Ret tt);;
          call (Fs (Rename extracted_dir "atp_data")))
         (fun e => st_error ("Failed to move ATP data directory: " ++ e))
  else st_error "ATP data folder not found in extracted zip!";; st_stop.

(** Lines 86-89. *)
Definition remove_temp : script unit :=
  try_catch (call (Fs (Rmtree temp_dir)))
    (fun e => st_warning ("Could not fully delete temp folder (harmless): " ++ e)).

(** Lines 61-89, the body of [with zipfile.ZipFile(zipped_data_path, 'r') as z].
    Leaving the block closes the archive, which was opened for reading; the
    close is not a call of its own here. *)
Definition stage_and_move : script unit :=
  clean_temp;;
  extracted ← try_extract_all zipped_data_path temp_dir 3;
  (if extracted : bool
   then Ret tt
   else st_error "Could not extract ATP dataset after multiple retries.";; st_stop);;
  move_into_place;;
  remove_temp.

(** Lines 55-92, the outer [try] and its handler. *)
Definition download_primary : script unit :=
  try_catch
    (fetch_archive;;
     call (Fs (ZipOpen zipped_data_path));;
     stage_and_move)
    (fun e => st_error ("Download failed: " ++ e);; st_stop).

(** Line 53 is [not os.path.exists("atp_data") or not os.listdir("atp_data")]:
    the listing is asked only of an existing path, and outside any [try]. *)
Definition ensure_primary : script unit :=
  present ← trigger (PathExists "atp_data");
  stale ← (if present : bool
           then l ← call (ListDir "atp_data"); Ret (falsy l)
           else Ret true);
  if stale : bool
  then st_spinner "Downloading ATP dataset (~15MB)...";; download_primary
  else Ret tt.

(** ** Secondary source (v12, lines 94-113) *)

Definition kaggle_dir : string := "kaggle_data".
Definition kaggle_file : string := path_join kaggle_dir "atp_matches.csv".
Definition kaggle_zip_path : string :=
  path_join kaggle_dir "atp-tennis-2000-2023daily-pull.zip".
Definition kaggle_dataset : string := "dissfya/atp-tennis-2000-2023daily-pull".

Definition ensure_secondary : script unit :=
  present ← trigger (PathExists kaggle_file);
  if present : bool
  then Ret tt
  else try_catch
         (st_info "Downloading updated ATP data from Kaggle...";;
          call (Fs (MakeDirs kaggle_dir));;
          zipped ← trigger (PathExists kaggle_zip_path);
          (if zipped : bool
           then Ret tt
           else call (Fs (RunKaggle kaggle_dataset kaggle_dir)));;
          call (Fs (ZipOpen kaggle_zip_path));;
          extracted ← try_extract_all kaggle_zip_path kaggle_dir 3;
          if extracted : bool
          then Ret tt
          else st_warning "Could not extract Kaggle dataset after multiple retries.")
         (fun e => st_warning ("Could not download from Kaggle: " ++ e)).

(** ** The pandas operations the scripts use *)

Definition lift {A : Type} (r : result A) : script A :=
  match r with Ok a => Ret a | Raise e => Throw e end.

(** [pd.DataFrame()]. *)
Definition empty_frame : table := Table [] [].

(** [df.shape[0]] and [len(df)]. *)
Definition n_rows (df : table) : nat := length (rows df).

(** [df.empty]: some axis has length 0. *)
Definition is_empty (df : table) : bool :=
  bool_decide (rows df = []) || bool_decide (columns df = []).

(** [df[c]]: the column's cells, [None] for a null cell; a missing label is
    a [KeyError]. *)
Definition getitem (df : table) (c : string) : result (list (option string)) :=
  if bool_decide (c ∈ columns df)
  then Ok ((fun r : gmap string string => r !! c) <$> rows df)
  else Raise ("'" ++ c ++ "'").

(** [col.notnull()]. *)
Definition notnull (col : list (option string)) : list bool :=
  (fun c : option string => bool_decide (is_Some c)) <$> col.

(** [col.isin(values)]. *)
Definition isin (col : list (option string)) (values : list (option string)) : list bool :=
  (fun c : option string => bool_decide (c ∈ values)) <$> col.

(** [col == value], elementwise; a null never compares equal. *)
Definition eq_value (col : list (option string)) (value : option string) : list bool :=
  (fun c : option string =>
     match c, value with
     | Some a, Some b => bool_decide (a = b)
     | _, _ => false
     end) <$> col.

(** [a & b] on boolean columns. *)
Definition mask_and (a b : list bool) : list bool := zip_with andb a b.

(** [df[mask]]: the rows whose mask entry is true, in order. *)
Definition boolean_index (df : table) (mask : list bool) : table :=
  Table (columns df) ((filter (fun rm : gmap string string * bool => rm.2 = true)
                         (zip (rows df) mask)).*1).

(** The labels of [l] in order of first appearance ([Series.unique()], and
    the column union of [pd.concat]). *)
Fixpoint unique_from (seen l : list string) : list string :=
  match l with
  | [] => []
  | x :: l' =>
      if bool_decide (x ∈ seen) then unique_from seen l'
      else x :: unique_from (x :: seen) l'
  end.
Definition unique (l : list string) : list string := unique_from [] l.

(** [col.dropna()]. *)
Definition dropna (col : list (option string)) : list string := omap id col.

(** [pd.concat(dfs, ignore_index=True)]: the union of the columns in order
    of first appearance and the rows of each table in turn; no tables at all
    is a [ValueError]. *)
Definition pd_concat (dfs : list table) : result table :=
  match dfs with
  | [] => Raise "No objects to concatenate"
  | _ => Ok (Table (unique (dfs ≫= columns)) (dfs ≫= rows))
  end.

(** Python's [sorted] on strings: by code point, which on UTF-8 text is the
    byte order of [String.leb]. *)
Definition sorted (l : list string) : list string :=
  merge_sort (fun a b : string => Is_true (String.leb a b)) l.

(** [f"{n:,}"]: decimal digits in groups of three. *)
Fixpoint group3 (fuel : nat) (n : N) : string :=
  match fuel with
  | O => pretty n
  | S fuel' =>
      if (n <? 1000)%N then pretty n
      else let low := pretty (n mod 1000)%N in
           group3 fuel' (n / 1000)%N ++ ","
           ++ (if (String.length low <? 2)%nat then "00"
               else if (String.length low <? 3)%nat then "0" else "")
           ++ low
  end.
Definition thousands (n : nat) : string := group3 n (N.of_nat n).

(** ** Load and merge (v12, lines 115-138) *)

(** Lines 119-124: each file is read inside its own [try]; a file that fails
    to parse is reported and skipped. *)
Fixpoint read_all (all_files : list string) (dfs : list table) : script (list table) :=
  match all_files with
  | [] => Ret dfs
  | f :: rest =>
      dfs' ← try_catch
        (t ← call (ReadCsv f None); Ret (dfs ++ [t])%list)
        (fun e => st_warning ("Skipping " ++ f ++ ": " ++ e);; Ret dfs);
      read_all rest dfs'
  end.

(** The names of the four columns the scripts look at. *)
Definition match_columns : list string :=
  ["winner_name"; "loser_name"; "surface"; "tourney_level"].

(** Lines 137-138. *)
Definition drop_null_rows (df : table) : result table :=
  w ← getitem df "winner_name";
  l ← getitem df "loser_name";
  let df := boolean_index df (mask_and (notnull w) (notnull l)) in
  s ← getitem df "surface";
  t ← getitem df "tourney_level";
  Ok (boolean_index df (mask_and (notnull s) (notnull t))).

(** Lines 126-138: what is made of the tables that were read. *)
Definition assemble (dfs : list table) (kaggle_df : table) : script table :=
  let dfs := if (0 <? n_rows kaggle_df)%nat then (dfs ++ [kaggle_df])%list else dfs in
  (if falsy dfs
   then st_error "No valid match data found.";; st_stop
   else Ret tt);;
  df ← lift (pd_concat dfs);
  st_success ("✅ Successfully loaded " ++ thousands (n_rows df) ++ " match records.");;
  lift (drop_null_rows df).

Definition load_and_merge : script table :=
  globbed ← trigger (Glob (path_join "atp_data" "atp_matches_*.csv"));
  let all_files := sorted globbed in
  present ← trigger (PathExists kaggle_file);
  kaggle_df ← (if present : bool then call (ReadCsv kaggle_file None) else Ret empty_frame);
  dfs ← read_all all_files [];
  assemble dfs kaggle_df.

(** ** One-hot encoding (v12, lines 156-157 and 164-165) *)

(** The categories of a column as [pd.get_dummies] orders them: the distinct
    non-null values, sorted. *)
Definition categories (col : list (option string)) : list string :=
  sorted (unique (dropna col)).

(** The indicator columns get the label [<column>_<category>]. *)
Definition dummy_label (name v : string) : string := name ++ "_" ++ v.

Definition dummy_labels (name : string) (col : list (option string)) : list string :=
  dummy_label name <$> categories col.

Definition dummy_cells (col : list (option string)) (cell : option string) : list bool :=
  (fun v : string => bool_decide (cell = Some v)) <$> categories col.

(** [pd.get_dummies(match_data[["surface", "tourney_level"]])]: labels and rows. *)
Definition get_dummies (surface level : list (option string))
  : list string * list (list bool) :=
  ((dummy_labels "surface" surface ++ dummy_labels "tourney_level" level)%list,
   zip_with (fun s t => (dummy_cells surface s ++ dummy_cells level t)%list) surface level).

(** [pd.get_dummies] of the one-row query frame: one indicator, equal to 1,
    for each non-null entry. *)
Definition query_labels (surface tourney_level : option string) : list string :=
  (option_list (dummy_label "surface" <$> surface)
   ++ option_list (dummy_label "tourney_level" <$> tourney_level))%list.

(** [.reindex(columns=X.columns, fill_value=0)] of that row: pandas refuses
    to reindex a frame whose own labels repeat; otherwise every requested
    label gets the row's value, or the fill value when the row lacks it. *)
Definition encode_query (surface tourney_level : option string) (X_columns : list string)
  : result (list (string * Z)) :=
  let labels := query_labels surface tourney_level in
  if bool_decide (NoDup labels)
  then Ok ((fun c : string => (c, if bool_decide (c ∈ labels) then 1%Z else 0%Z))
             <$> X_columns)
  else Raise "cannot reindex on an axis with duplicate labels".

(** ** Prediction (v12, lines 149-171) *)

(** [f"{x:.2f}"] of a value taken as an exact rational. *)
Definition round_half_even (q : Q) : Z :=
  let n := Qnum q in
  let d := Z.pos (Qden q) in
  let fl := (n / d)%Z in
  let twice := (2 * (n mod d))%Z in
  if (twice <? d)%Z then fl
  else if (d <? twice)%Z then (fl + 1)%Z
  else if Z.even fl then fl else (fl + 1)%Z.

Definition format_2f (q : Q) : string :=
  let c := round_half_even (q * 100) in
  let a := Z.abs c in
  let frac := pretty (a mod 100)%Z in
  (if (c <? 0)%Z then "-" else "")
  ++ pretty (a / 100)%Z ++ "."
  ++ (if (String.length frac <? 2)%nat then "0" else "") ++ frac.

(** [f"{v}"] of a selection, which is [None] when the select box had no
    options. *)
Definition render (v : option string) : string := default "None" v.

(** Line 150: the rows whose winner and whose loser are both among the two
    selected players. *)
Definition head_to_head (df : table) (player1 player2 : option string) : result table :=
  w ← getitem df "winner_name";
  l ← getitem df "loser_name";
  Ok (boolean_index df (mask_and (isin w [player1; player2]) (isin l [player1; player2]))).

(** Lines 150-171, after the button was pressed. *)
Definition predict (df : table) (player1 player2 surface tourney_level : option string)
  : script unit :=
  match_data ← lift (head_to_head df player1 player2);
  if is_empty match_data
  then st_warning "No head-to-head data between selected players."
  else
    mw ← lift (getitem match_data "winner_name");
    let p1_win := eq_value mw player1 in
    fs ← lift (getitem match_data "surface");
    fl ← lift (getitem match_data "tourney_level");
    let '(X_columns, X) := get_dummies fs fl in
    call (XgbFit X_columns X p1_win);;
    test_input ← lift (encode_query surface tourney_level X_columns);
    prediction ← call (XgbPredict test_input);
    probs ← call (XgbPredictProba test_input);
    let proba : Q := if prediction : bool then probs.2 else probs.1 in
    let winner := if prediction : bool then player1 else player2 in
    st_success ("🎯 Predicted Winner: **" ++ render winner ++ "** with "
                ++ format_2f (proba * 100) ++ "% confidence").

(** [players.index(player1)], for a [player1] that is in the list. *)
Fixpoint index_of (x : string) (l : list string) : nat :=
  match l with
  | [] => 0
  | y :: l' => if bool_decide (x = y) then 0 else S (index_of x l')
  end.

(** Lines 140-149: the selectors and the button.  The data frame has no
    null names here, so the two name sets hold strings only. *)
Definition select_and_predict (df : table) : script unit :=
  w ← lift (getitem df "winner_name");
  l ← lift (getitem df "loser_name");
  let players := sorted (unique (dropna w ++ dropna l)%list) in
  player1 ← trigger (SelectBox "Select Player 1" players 0);
  let index :=
    match player1 with
    | Some p => if bool_decide (p ∈ removelast players)
                then S (index_of p players) else 0
    | None => 0
    end in
  player2 ← trigger (SelectBox "Select Player 2" players index);
  s ← lift (getitem df "surface");
  surface ← trigger (SelectBox "Surface" (unique (dropna s)) 0);
  t ← lift (getitem df "tourney_level");
  tourney_level ← trigger (SelectBox "Tournament Level" (unique (dropna t)) 0);
  pressed ← trigger (Button "Predict Winner");
  if pressed : bool
  then predict df player1 player2 surface tourney_level
  else Ret tt.

(** Lines 53-138: everything up to the data frame the selectors read. *)
Definition acquire : script table :=
  ensure_primary;;
  ensure_secondary;;
  load_and_merge.

(** The script from line 53 to its end. *)
Definition main : script unit :=
  df ← acquire;
  select_and_predict df.

(** ** File selection and load of [tennis_match_predictor-app.py] (lines 33-55) *)

(** [s[i:j]] for a string, with Python's treatment of negative and
    out-of-range bounds. *)
Definition py_bound (len i : Z) : Z :=
  if (i <? 0)%Z then Z.max 0 (len + i) else Z.min i len.

Definition py_slice (s : string) (i j : Z) : string :=
  let len := Z.of_nat (String.length s) in
  let lo := py_bound len i in
  let hi := py_bound len j in
  String.substring (Z.to_nat lo) (Z.to_nat (hi - lo)) s.

Definition is_digit (c : Ascii.ascii) : bool :=
  let n := Ascii.N_of_ascii c in ((48 <=? n) && (n <=? 57))%N.

(** [s.isdigit()] on ASCII text: non-empty and digits only. *)
Definition isdigit (s : string) : bool :=
  match s with
  | EmptyString => false
  | _ => forallb is_digit (String.list_ascii_of_string s)
  end.

(** [int(s)] for a digit string. *)
Definition int_of (s : string) : Z :=
  fold_left (fun acc c => (10 * acc + (Z.of_N (Ascii.N_of_ascii c) - 48))%Z)
    (String.list_ascii_of_string s) 0%Z.

(** The condition of line 35. *)
Definition year_in_range (f : string) : bool :=
  isdigit (py_slice f (-8) (-4))
  && ((1981 <=? int_of (py_slice f (-8) (-4)))%Z
      && (int_of (py_slice f (-8) (-4)) <=? 2024)%Z).

(** Lines 34-35. *)
Definition app_all_files (globbed : list string) : list string :=
  List.filter year_in_range (sorted globbed).

(** Lines 42-48: a file passes when its first row can be read. *)
Fixpoint check_all (all_files valid_files : list string) : script (list string) :=
  match all_files with
  | [] => Ret valid_files
  | f :: rest =>
      valid_files' ← try_catch
        (call (ReadCsv f (Some 1));; Ret (valid_files ++ [f])%list)
        (fun e => st_warning ("Skipping " ++ f ++ ": " ++ e);; Ret valid_files);
      check_all rest valid_files'
  end.

(** Line 55: [[pd.read_csv(f) for f in valid_files]], outside any [try]. *)
Fixpoint read_valid (valid_files : list string) : script (list table) :=
  match valid_files with
  | [] => Ret []
  | f :: rest => t ← call (ReadCsv f None); ts ← read_valid rest; Ret (t :: ts)
  end.

Definition app_load : script table :=
  globbed ← trigger (Glob (path_join "atp_data" "atp_matches_*.csv"));
  let all_files := app_all_files globbed in
  (if falsy all_files
   then st_error "ATP match files not found after download. Please try again later.";;
        st_stop
   else Ret tt);;
  valid_files ← check_all all_files [];
  (if falsy valid_files
   then st_error "No valid CSV files found for loading.";; st_stop
   else Ret tt);;
  tables ← read_valid valid_files;
  lift (pd_concat tables).

(** ** Reading a trace *)

Definition is_extract (x : entry) : bool :=
  match x with LFs (ExtractAll _ _) _ => true | _ => false end.

Definition is_failed_extract (x : entry) : bool :=
  match x with LFs (ExtractAll _ _) (Raise _) => true | _ => false end.

Definition is_fetch (x : entry) : bool :=
  match x with LHttpGet _ _ => true | _ => false end.

(** The calls that can change what is on disk. *)
Definition is_write (x : entry) : bool :=
  match x with LFs (ZipOpen _) _ => false | LFs _ _ => true | _ => false end.

(** The entries of a trace that [pick] retains, in order. *)
Fixpoint collect {B : Type} (pick : entry -> option B) (t : list entry) : list B :=
  match t with
  | [] => []
  | x :: t' =>
      match pick x with
      | Some b => b :: collect pick t'
      | None => collect pick t'
      end
  end.

(** The pauses of a run, in order. *)
Definition sleeps (t : list entry) : list Q :=
  collect (fun x => match x with LSleep q => Some q | _ => None end) t.

(** The messages of one kind shown during a run, in order. *)
Definition shown (kind : st_kind) (t : list entry) : list string :=
  collect (fun x => match x with
                 | LSt k msg => if bool_decide (k = kind) then Some msg else None
                 | _ => None
                 end) t.

(** ** A simulated environment

    A small file system with a remote archive, used to run the scripts on
    concrete inputs.  The theorems below hold for every environment; this
    one supplies their concrete instances.  What the outside world answers
    is fixed by a [config]; what the scripts can change is the [disk]. *)
Record config : Type := Config {
  c_csv : gmap string (result table);   (* the CSV files, with what pd.read_csv makes of each *)
  c_remote : result string;             (* what the archive URL serves *)
  c_archive : list (string * list string); (* the archive: top-level folders and their files *)
  c_fault : fs_op -> option exn;        (* the operations that raise, and with what *)
  c_select : string -> option string;   (* the user's choice in each select box *)
  c_button : bool;                      (* whether the button is pressed *)
  c_predict : bool;                     (* the fitted model's label *)
  c_proba : Q * Q                       (* and its class probabilities *)
}.

Record disk : Type := Disk {
  d_dirs : gmap string (list string);   (* the directories and their entries *)
  d_files : gset string                 (* the regular files that are not CSV tables *)
}.

Definition under (dir path : string) : bool :=
  bool_decide (path = dir) || String.prefix (dir ++ "/") path.

Definition no_such (path : string) : exn :=
  "[Errno 2] No such file or directory: '" ++ path ++ "'".

Definition sim_fs (c : config) (op : fs_op) (d : disk) : result unit * disk :=
  match c_fault c op with
  | Some e => (Raise e, d)
  | None =>
    match op with
    | WriteFile path _ => (Ok tt, Disk (d_dirs d) ({[path]} ∪ d_files d))
    | ZipOpen path =>
        if bool_decide (path ∈ d_files d) then (Ok tt, d) else (Raise (no_such path), d)
    | ExtractAll _ extract_path =>
        (Ok tt,
         Disk (foldr (fun '(folder, members) dirs =>
                        <[path_join extract_path folder := members]> dirs)
                 (<[extract_path := (c_archive c).*1]> (d_dirs d)) (c_archive c))
              (d_files d))
    | Rmtree path =>
        if bool_decide (is_Some (d_dirs d !! path))
        then (Ok tt,
              Disk (filter (fun kv : string * list string => ¬ Is_true (under path kv.1))
                      (d_dirs d))
                   (d_files d))
        else (Raise (no_such path), d)
    | Rename src dst =>
        match d_dirs d !! src with
        | Some members => (Ok tt, Disk (<[dst := members]> (delete src (d_dirs d))) (d_files d))
        | None => (Raise (no_such src), d)
        end
    | MakeDirs path =>
        (Ok tt, Disk (if bool_decide (is_Some (d_dirs d !! path)) then d_dirs d
                      else <[path := []]> (d_dirs d)) (d_files d))
    | RunKaggle _ _ => (Raise (no_such "kaggle"), d)
    end
  end.

(** [fnmatch(name, "atp_matches_*.csv")]. *)
Definition is_match_file (name : string) : bool :=
  String.prefix "atp_matches_" name && String.prefix (String.rev ".csv") (String.rev name)
  && (16 <=? String.length name)%nat.

Definition sim (c : config) (X : Type) (e : event X) (d : disk) : X * disk :=
  match e in event X return X * disk with
  | PathExists path =>
      (bool_decide (is_Some (d_dirs d !! path)) || bool_decide (path ∈ d_files d)
       || bool_decide (is_Some (c_csv c !! path)), d)
  | ListDir path =>
      (match d_dirs d !! path with
       | Some l => Ok l
       | None => Raise ("[Errno 20] Not a directory: '" ++ path ++ "'")
       end, d)
  | HttpGet _ => (c_remote c, d)
  | Fs op => sim_fs c op d
  | Glob pattern =>
      (if bool_decide (pattern = "atp_data/atp_matches_*.csv")
       then path_join "atp_data"
              <$> List.filter is_match_file (default [] (d_dirs d !! "atp_data"))
       else [], d)
  | ReadCsv path _ => (default (Raise (no_such path)) (c_csv c !! path), d)
  | Sleep _ => (tt, d)
  | St _ _ => (tt, d)
  | SelectBox label _ _ => (c_select c label, d)
  | Button _ => (c_button c, d)
  | XgbFit _ _ _ => (Ok tt, d)
  | XgbPredict _ => (Ok (c_predict c), d)
  | XgbPredictProba _ => (Ok (c_proba c), d)
  end.

(** A row with the four columns the scripts look at. *)
Definition match_row (winner loser surface level : string) : gmap string string :=
  {[ "winner_name" := winner; "loser_name" := loser;
     "surface" := surface; "tourney_level" := level ]}.

Definition nadal_federer (label : string) : option string :=
  if bool_decide (label = "Select Player 1") then Some "Rafael Nadal"
  else if bool_decide (label = "Select Player 2") then Some "Roger Federer"
  else if bool_decide (label = "Surface") then Some "Hard"
  else Some "G".

(** The archive served with its expected folder and two per-year files; no
    Kaggle client installed. *)
Definition healthy : config :=
  Config
    {[ "atp_data/atp_matches_2019.csv" :=
         Ok (Table match_columns [match_row "Rafael Nadal" "Roger Federer" "Clay" "G"]);
       "atp_data/atp_matches_2020.csv" :=
         Ok (Table match_columns [match_row "Roger Federer" "Rafael Nadal" "Grass" "G"]) ]}
    (Ok "PK")
    [("tennis_atp-master", ["atp_matches_2019.csv"; "atp_matches_2020.csv"; "README.md"])]
    (fun _ => None)
    nadal_federer true true (0.25%Q, 0.75%Q).

(** A first start: nothing on disk. *)
Definition blank : disk := Disk ∅ ∅.

(** The same, with a disk on which every extraction fails. *)
Definition extraction_broken : config :=
  Config (c_csv healthy) (c_remote healthy) (c_archive healthy)
    (fun op => match op with
               | ExtractAll _ _ => Some "[Errno 28] No space left on device"
               | _ => None
               end)
    nadal_federer true true (0.25%Q, 0.75%Q).

Definition extract_attempts (t : list entry) : nat := length (List.filter is_extract t).
Definition fetches (t : list entry) : nat := length (List.filter is_fetch t).
Definition writes (t : list entry) : nat := length (List.filter is_write t).

Definition failed_extracts (t : list entry) : nat :=
  length (List.filter is_failed_extract t).

(** The loading phase opens with the [glob] of line 116. *)
Definition loading_started (t : list entry) : Prop :=
  exists files, In (LGlob (path_join "atp_data" "atp_matches_*.csv") files) t.

(** The archive is there, but the extracted folder cannot be renamed. *)
Definition rename_broken : config :=
  Config (c_csv healthy) (c_remote healthy) (c_archive healthy)
    (fun op => match op with
               | Rename _ _ => Some "[Errno 13] Permission denied"
               | _ => None
               end)
    nadal_federer true true (0.25%Q, 0.75%Q).

(** The archive cannot be fetched. *)
Definition offline : config :=
  Config (c_csv healthy) (Raise "Connection refused") (c_archive healthy)
    (fun _ => None) nadal_federer true true (0.25%Q, 0.75%Q).

(** The archive holds another folder than the expected one. *)
Definition renamed_upstream : config :=
  Config (c_csv healthy) (c_remote healthy) [("tennis_atp-main", ["atp_matches_2019.csv"])]
    (fun _ => None) nadal_federer true true (0.25%Q, 0.75%Q).

(** A disk with the archive already downloaded and nothing else. *)
Definition zip_only : disk := Disk ∅ {[zipped_data_path]}.

(** ** What holds of every run

    [every_run p Q]: whatever the environment answers, the outcome and the
    trace of [p] satisfy [Q]. *)
Fixpoint every_run {A : Type} (p : script A) (Q : outcome A -> list entry -> Prop) : Prop :=
  match p with
  | Ret a => Q (Normal a) []
  | Throw e => Q (Raised e) []
  | Halt => Q Stopped []
  | Vis e k => forall x, every_run (k x) (fun o t => Q o (observe e x :: t))
  end.

(** The entries that cleaning the staging directory can leave in a trace. *)
Definition is_cleaning (x : entry) : bool :=
  match x with
  | LExists p _ => String.eqb p temp_dir
  | LFs (Rmtree p) _ => String.eqb p temp_dir
  | LSt Warning _ => true
  | _ => false
  end.

(** The entries that the extraction helper can leave. *)
Definition is_extracting (x : entry) : bool :=
  match x with
  | LFs (ExtractAll _ _) _ | LSt Warning _ | LSleep _ => true
  | _ => false
  end.

(** ** Reading the trace of the loading phase

    The trace opens with the glob, the existence test of the secondary file
    and, when that file exists, its read; the per-year reads follow. *)
Definition globbed (t : list entry) : list string :=
  match t with LGlob _ files :: _ => files | _ => [] end.

Definition secondary_read (t : list entry) : option (result table) :=
  match t with
  | _ :: LExists _ true :: LReadCsv _ _ r :: _ => Some r
  | _ => None
  end.

(** The secondary table the merge works with: [pd.DataFrame()] when the
    file is absent. *)
Definition secondary_table (t : list entry) : table :=
  match secondary_read t with Some (Ok k) => k | _ => empty_frame end.

Definition primary_part (t : list entry) : list entry :=
  match t with
  | _ :: LExists _ true :: _ :: rest => rest
  | _ :: LExists _ false :: rest => rest
  | _ => []
  end.

(** The files read, the tables parsed and the skip messages owed, in order. *)
Definition reads (t : list entry) : list string :=
  collect (fun x => match x with LReadCsv f _ _ => Some f | _ => None end) t.

Definition parsed (t : list entry) : list table :=
  collect (fun x => match x with LReadCsv _ _ (Ok tb) => Some tb | _ => None end) t.

Definition skipped (t : list entry) : list string :=
  collect (fun x => match x with
                 | LReadCsv f _ (Raise e) => Some ("Skipping " ++ f ++ ": " ++ e)
                 | _ => None
                 end) t.

Definition is_read (x : entry) : bool :=
  match x with LReadCsv _ _ _ | LSt Warning _ => true | _ => false end.

Definition is_verdict (x : entry) : bool :=
  match x with LSt Error _ | LSt Success _ => true | _ => false end.

(** How lines 126-138 end, given the tables read. *)
Definition merged (dfs : list table) (kaggle_df : table) : outcome table :=
  match (if (0 <? n_rows kaggle_df)%nat then (dfs ++ [kaggle_df])%list else dfs) with
  | [] => Stopped
  | tables =>
      match pd_concat tables ≫= drop_null_rows with
      | Ok df => Normal df
      | Raise e => Raised e
      end
  end.

(** A run that did not reach its end. *)
Definition aborted {A : Type} (o : outcome A) : Prop :=
  match o with Normal _ => False | _ => True end.

(** No table at all: no per-year file parsed, no row in the secondary table. *)
Definition no_table (t : list entry) : Prop :=
  parsed (primary_part t) = [] /\ n_rows (secondary_table t) = 0.

(** The rows the data set keeps. *)
Definition null_free (r : gmap string string) : Prop :=
  forall c, In c match_columns -> is_Some (r !! c).

Definition null_free_b (r : gmap string string) : bool :=
  (bool_decide (is_Some (r !! "winner_name")) && bool_decide (is_Some (r !! "loser_name")))
  && (bool_decide (is_Some (r !! "surface")) && bool_decide (is_Some (r !! "tourney_level"))).

(** What the loading phase hands to the selectors: the four columns are
    there and no row has a null in any of them. *)
Definition dataset (df : table) : Prop :=
  (forall c, In c match_columns -> c ∈ columns df) /\ Forall null_free (rows df).

(** A disk with the primary directory in place. *)
Definition primed (members : list string) : disk := Disk {[ "atp_data" := members ]} ∅.

(** The per-year file parses, to a table without the four columns. *)
Definition wrong_schema : config :=
  Config
    {[ "atp_data/atp_matches_2019.csv" :=
         Ok (Table ["tourney_id"; "score"]
               [{[ "tourney_id" := "2019-520"; "score" := "6-3 5-7 6-1 6-1" ]}]) ]}
    (c_remote healthy) (c_archive healthy) (fun _ => None)
    nadal_federer true true (0.25%Q, 0.75%Q).

(** One good per-year file, and a secondary file that pandas cannot parse. *)
Definition secondary_corrupt : config :=
  Config
    (<[ kaggle_file := Raise "No columns to parse from file" ]> (c_csv healthy))
    (c_remote healthy) (c_archive healthy) (fun _ => None)
    nadal_federer true true (0.25%Q, 0.75%Q).

(** One good and one malformed per-year file; a secondary file with a header
    and no data row. *)
Definition mixed : config :=
  Config
    (<[ "atp_data/atp_matches_2021.csv" := Raise "Error tokenizing data" ]>
       (<[ kaggle_file := Ok (Table match_columns []) ]> (c_csv healthy)))
    (c_remote healthy) (c_archive healthy) (fun _ => None)
    nadal_federer true true (0.25%Q, 0.75%Q).

(** Rows with a null in each of the four columns in turn, and one good row. *)
Definition with_nulls : config :=
  Config
    {[ "atp_data/atp_matches_2019.csv" :=
         Ok (Table match_columns
               [ {[ "loser_name" := "Roger Federer"; "surface" := "Clay";
                    "tourney_level" := "G" ]};
                 {[ "winner_name" := "Rafael Nadal"; "surface" := "Clay";
                    "tourney_level" := "G" ]};
                 match_row "Rafael Nadal" "Roger Federer" "Clay" "G";
                 {[ "winner_name" := "Rafael Nadal"; "loser_name" := "Roger Federer";
                    "tourney_level" := "G" ]};
                 {[ "winner_name" := "Rafael Nadal"; "loser_name" := "Roger Federer";
                    "surface" := "Clay" ]} ]) ]}
    (c_remote healthy) (c_archive healthy) (fun _ => None)
    nadal_federer true true (0.25%Q, 0.75%Q).

(** ** The head-to-head subset, in the words of the specification *)

(** A match strictly between the two players: one of them won, the other
    lost. *)
Definition strictly_between (player1 player2 : option string) (r : gmap string string)
  : Prop :=
  (r !! "winner_name" = player1 /\ r !! "loser_name" = player2)
  \/ (r !! "winner_name" = player2 /\ r !! "loser_name" = player1).

(** A row that names one of the two players as winner and as loser. *)
Definition same_player_twice (player1 player2 : option string) (r : gmap string string)
  : Prop :=
  r !! "winner_name" = r !! "loser_name"
  /\ (r !! "winner_name" = player1 \/ r !! "winner_name" = player2).

(** The condition of line 150 on one row. *)
Definition both_selected (player1 player2 : option string) (r : gmap string string) : bool :=
  bool_decide (r !! "winner_name" ∈ [player1; player2])
  && bool_decide (r !! "loser_name" ∈ [player1; player2]).

(** The subset holds exactly the matches strictly between the two players. *)
Definition exactly_the_matches_between (df md : table) (player1 player2 : option string)
  : Prop :=
  forall r, In r (rows md) <-> In r (rows df) /\ strictly_between player1 player2 r.

(** Three matches between Nadal and Federer or of one of them alone, one
    with a third player. *)
Definition rivalry : table :=
  Table match_columns
    [ match_row "Rafael Nadal" "Roger Federer" "Clay" "G";
      match_row "Novak Djokovic" "Rafael Nadal" "Hard" "M";
      match_row "Roger Federer" "Rafael Nadal" "Grass" "G" ].

(** A data set with one row that names the same player twice. *)
Definition walkover : table :=
  Table match_columns [ match_row "Rafael Nadal" "Rafael Nadal" "Clay" "G" ].

(** A per-year file from before 1981 next to one from the range. *)
Definition with_1968 : config :=
  Config
    (<[ "atp_data/atp_matches_1968.csv" :=
          Ok (Table match_columns [match_row "Rod Laver" "Ken Rosewall" "Grass" "G"]) ]>
       (c_csv healthy))
    (c_remote healthy) (c_archive healthy) (fun _ => None)
    nadal_federer true true (0.25%Q, 0.75%Q).

(** No row of the data set is a match between the two players, nor a row
    that names one of them twice: the subset of line 150 is empty. *)
Definition no_match_between (df : table) (player1 player2 : option string) : Prop :=
  forall r,
    In r (rows df) ->
    ~ (strictly_between player1 player2 r \/ same_player_twice player1 player2 r).


(** ** Raised exceptions and the messages that report them *)

(** Some file-system call or the fetch raised [e]. *)
Definition raised_in (e : exn) (t : list entry) : Prop :=
  (exists op, In (LFs op (Raise e)) t) \/ (exists url, In (LHttpGet url (Raise e)) t).

(** The message ends with the text of [e]. *)
Definition ends_with (e msg : string) : Prop := exists prefix, msg = prefix ++ e.

(** Some message shown to the user ends with the text of [e]. *)
Definition told (e : exn) (t : list entry) : Prop :=
  exists kind msg, In (LSt kind msg) t /\ ends_with e msg.

Definition all_told (t : list entry) : Prop := forall e, raised_in e t -> told e t.

(** A path named [atp_data] that is a regular file. *)
Definition atp_data_is_a_file : disk := Disk ∅ {["atp_data"]}.

(** The cached archive is there and is no zip file. *)
Definition cache_corrupt : config :=
  Config (c_csv healthy) (c_remote healthy) (c_archive healthy)
    (fun op => match op with
               | ZipOpen _ => Some "File is not a zip file"
               | _ => None
               end)
    nadal_federer true true (0.25%Q, 0.75%Q).

(** ** The tables a run merged, and the line that counts their rows *)

(** The tables of lines 119-127: the per-year tables in the order read,
    then the secondary table when it has rows. *)
Definition loaded_tables (t : list entry) : list table :=
  if (0 <? n_rows (secondary_table t))%nat
  then (parsed (primary_part t) ++ [secondary_table t])%list
  else parsed (primary_part t).

(** The message of line 134 for [n] rows. *)
Definition success_line (n : nat) : string :=
  "✅ Successfully loaded " ++ thousands n ++ " match records.".

(** ** The selectors and the prediction, observed *)

(** The cells of a column, as [getitem] returns them. *)
Definition cells (df : table) (c : string) : list (option string) :=
  (fun r : gmap string string => r !! c) <$> rows df.

(** The option list of line 141. *)
Definition players_of (df : table) : list string :=
  sorted (unique (dropna (cells df "winner_name") ++ dropna (cells df "loser_name"))%list).

(** The [index] argument of line 143. *)
Definition default_index (players : list string) (player1 : option string) : nat :=
  match player1 with
  | Some p => if bool_decide (p ∈ removelast players) then S (index_of p players) else 0
  | None => 0
  end.

(** The answers given at the select box with a label, in order. *)
Definition chosen (label : string) (t : list entry) : list (option string) :=
  collect (fun x => match x with
                 | LSelectBox l _ _ c => if bool_decide (l = label) then Some c else None
                 | _ => None
                 end) t.

(** The entries lines 150-171 can leave. *)
Definition is_predicting (x : entry) : bool :=
  match x with
  | LSt _ _ | LXgbFit _ _ _ _ | LXgbPredict _ _ | LXgbPredictProba _ _ => true
  | _ => false
  end.

(** The message of line 171. *)
Definition prediction_line (winner : option string) (proba : Q) : string :=
  "🎯 Predicted Winner: **" ++ render winner ++ "** with "
  ++ format_2f (proba * 100) ++ "% confidence".

(** An exception of the classifier. *)
Definition classifier_raised (e : exn) (t : list entry) : Prop :=
  (exists X_columns X y, In (LXgbFit X_columns X y (Raise e)) t)
  \/ (exists row, In (LXgbPredict row (Raise e)) t)
  \/ (exists row, In (LXgbPredictProba row (Raise e)) t).

(** The environment [sim c] with a classifier that refuses its training
    data. *)
Definition refusing (c : config) (X : Type) (e : event X) (d : disk) : X * disk :=
  match e in event X return X * disk with
  | XgbFit _ _ _ => (Raise "Invalid classes inferred from unique values of `y`.", d)
  | e' => sim c _ e' d
  end.



(** ** The load of [tennis_match_predictor-app.py], observed *)

(** The files that passed the one-row check of line 45, the files read in
    full on line 55, and the tables these reads returned, in order. *)
Definition checked (t : list entry) : list string :=
  collect (fun x => match x with LReadCsv f (Some _) (Ok _) => Some f | _ => None end) t.

Definition full_reads (t : list entry) : list string :=
  collect (fun x => match x with LReadCsv f None _ => Some f | _ => None end) t.

Definition full_tables (t : list entry) : list table :=
  collect (fun x => match x with LReadCsv _ None (Ok tb) => Some tb | _ => None end) t.

Definition is_check (x : entry) : bool :=
  match x with LReadCsv _ (Some _) _ | LSt Warning _ => true | _ => false end.

Definition is_full_read (x : entry) : bool :=
  match x with LReadCsv _ None _ => true | _ => false end.


(** The last thing a run did was to show an error. *)
Definition ends_in_error (t : list entry) : Prop :=
  exists msg, last t = Some (LSt Error msg).

Arguments clean_temp : simpl never.
Arguments remove_temp : simpl never.
Arguments try_extract_all : simpl never.
Arguments move_into_place : simpl never.
Arguments fetch_archive : simpl never.
Arguments stage_and_move : simpl never.
Arguments download_primary : simpl never.

(** * Properties *)

(** ** Running composed scripts *)

(** Symbolic execution of a run recorded in a hypothesis [H : run env p s = r]:
    unfold the script as far as the next call, split on the call's answer. *)
Ltac answer_cases x :=
  lazymatch type of x with
  | bool => destruct x
  | result (list _) => let l := fresh "l" in destruct x as [l |]; [destruct l |]
  | result unit => destruct x as [[] |]
  | result _ => destruct x
  | unit => destruct x
  | _ => idtac
  end.

Ltac unfold_run H :=
  lazy beta iota zeta delta
    [run bind try_catch mbind script_bind mret script_ret trigger call lift observe falsy
     st_warning st_error st_info st_success st_spinner st_stop
     ensure_primary download_primary stage_and_move ensure_secondary
     fetch_archive clean_temp move_into_place remove_temp
     try_extract_all try_extract_loop seq] in H.

Ltac run_step_in H env :=
  match type of H with
  | context [env ?X ?e ?s] =>
      let x := fresh "x" in
      let s' := fresh "s" in
      let E := fresh "E" in
      destruct (env X e s) as [x s'] eqn:E; answer_cases x; unfold_run H
  end.

(** The same on the goal, for scripts with a loop left to induction. *)
Ltac run_step env :=
  match goal with
  | |- context [env ?X ?e ?s] =>
      let x := fresh "x" in
      let s' := fresh "s" in
      let E := fresh "E" in
      destruct (env X e s) as [x s'] eqn:E; answer_cases x; cbn
  end.

Section Running.
Context {S : Type} (env : forall X : Type, event X -> S -> X * S).

Lemma run_bind {A B : Type} (p : script A) (f : A -> script B) (s : S) :
  run env (p ≫= f) s =
  match run env p s with
  | (Normal a, s1, t1) => let '(o, s2, t2) := run env (f a) s1 in (o, s2, (t1 ++ t2)%list)
  | (Raised e, s1, t1) => (Raised e, s1, t1)
  | (Stopped, s1, t1) => (Stopped, s1, t1)
  end.
Proof.
  unfold mbind, script_bind. revert s.
  induction p as [a | e | | X e k IH]; intros s; cbn.
  - destruct (run env (f a) s) as [[o s2] t2]. reflexivity.
  - reflexivity.
  - reflexivity.
  - destruct (env X e s) as [x s1]. rewrite IH.
    destruct (run env (k x) s1) as [[[a | e' | ] s2] t1]; cbn; try reflexivity.
    destruct (run env (f a) s2) as [[o s3] t2]. reflexivity.
Qed.

Lemma run_try_catch {A : Type} (p : script A) (handler : exn -> script A) (s : S) :
  run env (try_catch p handler) s =
  match run env p s with
  | (Raised e, s1, t1) => let '(o, s2, t2) := run env (handler e) s1 in (o, s2, (t1 ++ t2)%list)
  | r => r
  end.
Proof.
  revert s. induction p as [a | e | | X e k IH]; intros s; cbn.
  - reflexivity.
  - destruct (run env (handler e) s) as [[o s2] t2]. reflexivity.
  - reflexivity.
  - destruct (env X e s) as [x s1]. rewrite IH.
    destruct (run env (k x) s1) as [[[a | e' | ] s2] t1]; cbn; try reflexivity.
    destruct (run env (handler e') s2) as [[o s3] t2]. reflexivity.
Qed.

Lemma run_trigger {X : Type} (e : event X) (s : S) :
  run env (trigger e) s = (Normal (env _ e s).1, (env _ e s).2, [observe e (env _ e s).1]).
Proof. cbn. destruct (env X e s). reflexivity. Qed.


End Running.

(** ** Extraction retries *)

Section ExtractionAlwaysRaises.
Context {S : Type} (env : forall X : Type, event X -> S -> X * S).

(** Every [extractall] raises, whatever the archive, the target and the
    state of the world. *)
Hypothesis always_raises :
  forall z p s, exists e, (env _ (Fs (ExtractAll z p)) s).1 = Raise e.

Ltac extraction_raises :=
  match goal with
  | E : env _ (Fs (ExtractAll ?z ?p)) ?s = (Ok _, _) |- _ =>
      let He := fresh in
      destruct (always_raises z p s) as [? He]; rewrite E in He; discriminate He
  end.

(** For any retry budget, the helper makes as many attempts as the budget
    and returns [False]. *)
Lemma try_extract_loop_exhausts z p attempts s :
  result_of env (try_extract_loop z p attempts) s = Normal false
  /\ extract_attempts (trace_of env (try_extract_loop z p attempts) s) = length attempts
  /\ sleeps (trace_of env (try_extract_loop z p attempts) s)
     = (fun attempt => (1.5 * inject_Z (Z.of_nat (attempt + 1)))%Q) <$> attempts.
Proof.
  unfold result_of, trace_of. revert s.
  induction attempts as [| attempt rest IH]; intros s; [done |].
  cbn. run_step env; [extraction_raises |]. do 2 run_step env.
  specialize (IH s2).
  destruct (run env (try_extract_loop z p rest) s2) as [[o s3] t]; cbn in *.
  destruct IH as (-> & IH & ->). unfold extract_attempts in *. cbn. by rewrite IH.
Qed.

(** C3. When [extractall] raises on every attempt: the helper attempts
    exactly 3 times, warns and sleeps 1.5 s times the attempt number after
    each failure, and returns [False]; at the primary call site that is
    reported as an error and the run is stopped, also through the enclosing
    [try]: whenever primary acquisition gets as far as extracting, it makes
    3 attempts and ends stopped. *)
Theorem extraction_exhausted_is_fatal :
  (forall z p s, exists e1 e2 e3 s',
      run env (try_extract_all z p 3) s
      = (Normal false, s',
         [LFs (ExtractAll z p) (Raise e1);
          LSt Warning ("Attempt 1 to extract zip failed: " ++ e1);
          LSleep (1.5 * 1);
          LFs (ExtractAll z p) (Raise e2);
          LSt Warning ("Attempt 2 to extract zip failed: " ++ e2);
          LSleep (1.5 * 2);
          LFs (ExtractAll z p) (Raise e3);
          LSt Warning ("Attempt 3 to extract zip failed: " ++ e3);
          LSleep (1.5 * 3)]))
  /\ (forall s,
        result_of env stage_and_move s = Stopped
        /\ extract_attempts (trace_of env stage_and_move s) = 3
        /\ last (trace_of env stage_and_move s)
           = Some (LSt Error "Could not extract ATP dataset after multiple retries."))
  /\ (forall s,
        extract_attempts (trace_of env ensure_primary s) <> 0 ->
        result_of env ensure_primary s = Stopped
        /\ extract_attempts (trace_of env ensure_primary s) = 3
        /\ shown Error (trace_of env ensure_primary s)
           = ["Could not extract ATP dataset after multiple retries."]).
Proof.
  unfold result_of, trace_of. split; [| split].
  - intros z p s.
    destruct (run env (try_extract_all z p 3) s) as [[o s'] t] eqn:Hrun.
    unfold_run Hrun.
    repeat (run_step_in Hrun env; try extraction_raises).
    injection Hrun as <- <- <-. eexists _, _, _, _. reflexivity.
  - intros s.
    destruct (run env stage_and_move s) as [[o s'] t] eqn:Hrun.
    unfold_run Hrun.
    repeat (run_step_in Hrun env; try extraction_raises);
      injection Hrun as <- <- <-; done.
  - intros s.
    destruct (run env ensure_primary s) as [[o s'] t] eqn:Hrun.
    unfold_run Hrun.
    repeat (run_step_in Hrun env; try extraction_raises);
      injection Hrun as <- <- <-; done.
Qed.

End ExtractionAlwaysRaises.

(** An instance: a first start on a disk where every extraction fails. *)
Lemma extraction_exhausted_is_fatal_witness :
  (forall z p d, exists e, (sim extraction_broken _ (Fs (ExtractAll z p)) d).1 = Raise e)
  /\ result_of (sim extraction_broken) ensure_primary blank = Stopped
  /\ extract_attempts (trace_of (sim extraction_broken) ensure_primary blank) = 3
  /\ sleeps (trace_of (sim extraction_broken) ensure_primary blank) = [(1.5 * 1)%Q; (1.5 * 2)%Q; (1.5 * 3)%Q].
Proof.
  assert (H : forall z p d,
             exists e, (sim extraction_broken _ (Fs (ExtractAll z p)) d).1 = Raise e)
    by (intros; eexists; reflexivity).
  split; [exact H |].
  destruct (extraction_exhausted_is_fatal (sim extraction_broken) H) as (_ & _ & Hfatal).
  destruct (Hfatal blank) as (Hstop & Hthree & _); [vm_compute; lia |].
  split; [exact Hstop |]. split; [exact Hthree |]. reflexivity.
Defined.


(** ** Reasoning about every run *)

Lemma every_run_sound {A : Type} (p : script A) (Q : outcome A -> list entry -> Prop) :
  every_run p Q ->
  forall (S : Type) (env : forall X : Type, event X -> S -> X * S) (s : S),
    Q (result_of env p s) (trace_of env p s).
Proof.
  unfold result_of, trace_of. revert Q.
  induction p as [a | e | | X e k IH]; intros Q H S env s; cbn in *; try exact H.
  destruct (env X e s) as [x s1].
  specialize (IH x _ (H x) S env s1).
  destruct (run env (k x) s1) as [[o s2] t]. exact IH.
Qed.

Lemma every_run_mono {A : Type} (p : script A) (Q Q' : outcome A -> list entry -> Prop) :
  (forall o t, Q o t -> Q' o t) -> every_run p Q -> every_run p Q'.
Proof.
  revert Q Q'. induction p as [a | e | | X e k IH]; intros Q Q' HQ H; cbn in *; auto.
  intros x. eapply IH; [| apply H]. cbn. auto.
Qed.

Lemma every_run_bind {A B : Type} (p : script A) (f : A -> script B)
    (Q : outcome B -> list entry -> Prop) :
  every_run p (fun o t =>
                 match o with
                 | Normal a => every_run (f a) (fun o' t' => Q o' (t ++ t')%list)
                 | Raised e => Q (Raised e) t
                 | Stopped => Q Stopped t
                 end) ->
  every_run (p ≫= f) Q.
Proof.
  unfold mbind, script_bind. revert Q.
  induction p as [a | e | | X e k IH]; intros Q H; cbn in *; try exact H.
  intros x. apply IH. exact (H x).
Qed.

Lemma every_run_try_catch {A : Type} (p : script A) (handler : exn -> script A)
    (Q : outcome A -> list entry -> Prop) :
  every_run p (fun o t =>
                 match o with
                 | Raised e => every_run (handler e) (fun o' t' => Q o' (t ++ t')%list)
                 | _ => Q o t
                 end) ->
  every_run (try_catch p handler) Q.
Proof.
  revert Q. induction p as [a | e | | X e k IH]; intros Q H; cbn in *; try exact H.
  intros x. apply IH. exact (H x).
Qed.

(** One step through a script: split a bind or a [try], take a call with
    each of its answers, decide a condition. *)
Ltac script_cbn :=
  cbn [every_run bind try_catch trigger call mbind script_bind mret script_ret observe
       st_warning st_error st_stop st_info st_spinner st_success lift falsy app
       try_extract_loop].

Ltac every_step :=
  lazymatch goal with
  | |- every_run (_ ≫= _) _ => apply every_run_bind
  | |- every_run (bind _ _) _ => apply every_run_bind
  | |- every_run (try_catch _ _) _ => apply every_run_try_catch
  | |- every_run (if ?b then _ else _) _ => destruct b
  | |- every_run (match ?r with Ok _ => _ | Raise _ => _ end) _ => destruct r
  | |- every_run (Vis _ _) _ =>
      let x := fresh "x" in intros x; answer_cases x; script_cbn
  | |- every_run (trigger _) _ =>
      let x := fresh "x" in intros x; answer_cases x; script_cbn
  | |- every_run (call _) _ =>
      let x := fresh "x" in intros x; answer_cases x; script_cbn
  | |- every_run (st_warning _) _ => intros []; script_cbn
  | |- every_run (st_error _) _ => intros []; script_cbn
  | |- every_run st_stop _ => script_cbn
  | |- every_run (Ret _) _ => script_cbn
  | |- every_run (Throw _) _ => script_cbn
  | |- every_run Halt _ => script_cbn
  | |- forall x : _, every_run _ _ =>
      let x := fresh "x" in intros x; answer_cases x; script_cbn
  | |- forall x : unit, _ => intros []; script_cbn
  | |- forall x : bool, _ => intros []; script_cbn
  | |- forall x : result _, _ =>
      let x := fresh "x" in intros x; answer_cases x; script_cbn
  end.

Lemma clean_temp_spec :
  every_run clean_temp (fun o t => o = Normal tt /\ forallb is_cleaning t = true).
Proof. unfold clean_temp. repeat every_step; done. Qed.

Lemma remove_temp_spec :
  every_run remove_temp (fun o t => o = Normal tt /\ forallb is_cleaning t = true).
Proof. unfold remove_temp. repeat every_step; done. Qed.

Lemma try_extract_loop_spec z p attempts :
  every_run (try_extract_loop z p attempts)
    (fun o t =>
       exists b, o = Normal b
                 /\ forallb is_extracting t = true
                 /\ if b then failed_extracts t < length attempts
                    else failed_extracts t = length attempts).
Proof.
  induction attempts as [| attempt rest IH]; cbn [try_extract_loop].
  - exists false. done.
  - repeat every_step.
    + exists true. cbn. split; [done |]. split; [done |]. lia.
    + eapply every_run_mono; [| apply IH].
      intros o t (b & -> & Hall & Hb). exists b.
      split; [done |]. split; [exact Hall |].
      unfold failed_extracts in *. cbn. destruct b; lia.
Qed.

Lemma try_extract_all_spec z p :
  every_run (try_extract_all z p 3)
    (fun o t =>
       exists b, o = Normal b
                 /\ forallb is_extracting t = true
                 /\ if b then failed_extracts t < 3 else failed_extracts t = 3).
Proof. apply (try_extract_loop_spec z p [0; 1; 2]). Qed.

(** ** Primary acquisition in any environment *)

Lemma filter_nil_of_forallb (f g : entry -> bool) (t : list entry) :
  (forall x, f x = true -> g x = false) ->
  forallb f t = true -> List.filter g t = [].
Proof.
  intros Hfg. induction t as [| x t IH]; cbn; [done |].
  intros [Hx Ht]%andb_prop. rewrite (Hfg x Hx). auto.
Qed.

Lemma cleaning_has_no_extract t :
  forallb is_cleaning t = true -> failed_extracts t = 0.
Proof.
  intros H. unfold failed_extracts.
  rewrite (filter_nil_of_forallb is_cleaning is_failed_extract); [done | | done].
  intros [] Hx; try done. destruct op; done.
Qed.

Lemma cleaning_has_no_fetch t : forallb is_cleaning t = true -> fetches t = 0.
Proof.
  intros H. unfold fetches.
  rewrite (filter_nil_of_forallb is_cleaning is_fetch); [done | | done].
  intros [] Hx; done.
Qed.

Lemma extracting_has_no_fetch t : forallb is_extracting t = true -> fetches t = 0.
Proof.
  intros H. unfold fetches.
  rewrite (filter_nil_of_forallb is_extracting is_fetch); [done | | done].
  intros [] Hx; done.
Qed.

Lemma failed_extracts_app t1 t2 :
  failed_extracts (t1 ++ t2) = failed_extracts t1 + failed_extracts t2.
Proof. unfold failed_extracts. by rewrite List.filter_app, length_app. Qed.

Lemma fetches_app t1 t2 : fetches (t1 ++ t2) = fetches t1 + fetches t2.
Proof. unfold fetches. by rewrite List.filter_app, length_app. Qed.

(** Use the summary of a segment in place of its runs. *)
Ltac segment_step :=
  lazymatch goal with
  | |- every_run clean_temp _ =>
      let Hc := fresh "Hclean" in
      eapply every_run_mono; [| apply clean_temp_spec];
      intros ? ? [-> Hc]; script_cbn
  | |- every_run remove_temp _ =>
      let Hc := fresh "Hremove" in
      eapply every_run_mono; [| apply remove_temp_spec];
      intros ? ? [-> Hc]; script_cbn
  | |- every_run (try_extract_all _ _ 3) _ =>
      let b := fresh "extracted" in
      let He := fresh "Hextract" in
      let Hn := fresh "Hfailed" in
      eapply every_run_mono; [| apply try_extract_all_spec];
      intros ? ? (b & -> & He & Hn); script_cbn
  | |- every_run ensure_primary _ => unfold ensure_primary
  | |- every_run download_primary _ => unfold download_primary
  | |- every_run stage_and_move _ => unfold stage_and_move
  | |- every_run fetch_archive _ => unfold fetch_archive
  | |- every_run move_into_place _ => unfold move_into_place
  | _ => every_step
  end.

(** Where in a trace an entry can be: not in the part a summary covers when
    the summary excludes it. *)
Ltac locate H :=
  repeat match type of H with
         | _ \/ _ => destruct H as [H | H]
         | False => destruct H
         | @eq entry _ _ => cbv in H; discriminate H
         | In _ (_ :: _) => cbn [In] in H
         | In _ (_ ++ _) => apply in_app_or in H
         | In _ [] => destruct H
         | In ?x ?t =>
             match goal with
             | F : forallb ?f t = true |- _ =>
                 apply (proj1 (forallb_forall f t) F) in H; cbv in H; discriminate H
             end
         end.

Ltac show_in :=
  cbn [In app];
  repeat first [left; reflexivity | right | apply in_or_app; right].

Lemma move_failure_reported :
  every_run ensure_primary
    (fun o t =>
       forall e,
         In (LFs (Rmtree "atp_data") (Raise e)) t
         \/ In (LFs (Rename extracted_dir "atp_data") (Raise e)) t ->
         o = Normal tt /\ In (LSt Error ("Failed to move ATP data directory: " ++ e)) t).
Proof.
  repeat segment_step.
  all: intros err [H | H]; locate H.
  all: try (injection H as ->).
  all: split; [reflexivity | show_in].
Qed.

Lemma failed_fetch_stops :
  every_run ensure_primary
    (fun o t => forall url e, In (LHttpGet url (Raise e)) t -> o = Stopped).
Proof.
  repeat segment_step.
  all: intros url err H; locate H; reflexivity.
Qed.

Lemma missing_folder_stops :
  every_run ensure_primary
    (fun o t => In (LExists extracted_dir false) t -> o = Stopped).
Proof.
  repeat segment_step.
  all: intros H; locate H; reflexivity.
Qed.

Lemma exhausted_extraction_stops :
  every_run ensure_primary (fun o t => failed_extracts t = 3 -> o = Stopped).
Proof.
  repeat segment_step.
  all: try reflexivity.
  all: cbn [app]; unfold failed_extracts; cbn [List.filter is_failed_extract length];
    fold (failed_extracts []); try discriminate.
  all: repeat match goal with
         | |- context [List.filter is_failed_extract (?a ++ ?b)] =>
             rewrite (List.filter_app is_failed_extract a b), length_app
         end;
    cbn [List.filter is_failed_extract length];
    repeat match goal with
      | H : forallb is_cleaning ?t = true |- _ =>
          apply cleaning_has_no_extract in H; unfold failed_extracts in H
      end;
    unfold failed_extracts in *; lia.
Qed.

(** With the archive already cached, nothing is fetched. *)
Lemma cached_archive_is_not_fetched :
  every_run ensure_primary
    (fun o t => In (LExists zipped_data_path true) t -> fetches t = 0).
Proof.
  repeat segment_step.
  all: intros H; locate H.
  all: cbn [app]; unfold fetches; cbn [List.filter is_fetch length]; try reflexivity.
  all: repeat match goal with
         | |- context [List.filter is_fetch (?a ++ ?b)] =>
             rewrite (List.filter_app is_fetch a b), length_app
         end;
    cbn [List.filter is_fetch length];
    repeat match goal with
      | H : forallb is_cleaning ?t = true |- _ =>
          apply cleaning_has_no_fetch in H; unfold fetches in H
      | H : forallb is_extracting ?t = true |- _ =>
          apply extracting_has_no_fetch in H; unfold fetches in H
      end;
    lia.
Qed.

Section AnyEnvironment.
Context {S : Type} (env : forall X : Type, event X -> S -> X * S).

(** The secondary source never ends the run. *)
Lemma ensure_secondary_never_aborts s : result_of env ensure_secondary s = Normal tt.
Proof.
  apply (every_run_sound ensure_secondary (fun o _ => o = Normal tt)).
  unfold ensure_secondary. repeat every_step; try reflexivity.
  all: eapply every_run_mono; [| apply try_extract_all_spec].
  all: intros o t (b & -> & _); script_cbn; destruct b; repeat every_step; reflexivity.
Qed.

Lemma load_and_merge_starts_loading s : loading_started (trace_of env load_and_merge s).
Proof.
  unfold loading_started, trace_of, load_and_merge.
  rewrite run_bind, run_trigger.
  match goal with |- context [run env ?p ?s] => destruct (run env p s) as [[o s2] t] end.
  eexists. left. reflexivity.
Qed.

Lemma acquire_reaches_loading s :
  result_of env ensure_primary s = Normal tt ->
  loading_started (trace_of env acquire s).
Proof.
  unfold result_of, trace_of, acquire. intros Hp.
  rewrite run_bind.
  destruct (run env ensure_primary s) as [[o s1] t1]; cbn in Hp; subst o.
  rewrite run_bind.
  pose proof (ensure_secondary_never_aborts s1) as Hs. unfold result_of in Hs.
  destruct (run env ensure_secondary s1) as [[o s2] t2]; cbn in Hs; subst o.
  destruct (load_and_merge_starts_loading s2) as [files Hin]. unfold trace_of in Hin.
  destruct (run env load_and_merge s2) as [[o s3] t3]; cbn in *.
  exists files. apply in_or_app. right. apply in_or_app. right. exact Hin.
Qed.

(** C9. When moving the extracted folder into place fails (removing the old
    [atp_data] or the rename raises), the error is shown and primary
    acquisition still ends normally, so the script goes on through the
    secondary source to the loading phase.  A failed fetch, three failed
    extractions and a missing extracted folder each stop the run. *)
Theorem move_failure_is_not_fatal :
  (forall s e,
      In (LFs (Rmtree "atp_data") (Raise e)) (trace_of env ensure_primary s)
      \/ In (LFs (Rename extracted_dir "atp_data") (Raise e)) (trace_of env ensure_primary s) ->
      result_of env ensure_primary s = Normal tt
      /\ In (LSt Error ("Failed to move ATP data directory: " ++ e))
            (trace_of env ensure_primary s)
      /\ loading_started (trace_of env acquire s))
  /\ (forall s url e,
        In (LHttpGet url (Raise e)) (trace_of env ensure_primary s) ->
        result_of env ensure_primary s = Stopped)
  /\ (forall s,
        failed_extracts (trace_of env ensure_primary s) = 3 ->
        result_of env ensure_primary s = Stopped)
  /\ (forall s,
        In (LExists extracted_dir false) (trace_of env ensure_primary s) ->
        result_of env ensure_primary s = Stopped).
Proof.
  split; [| split; [| split]].
  - intros s e Hmove.
    destruct (every_run_sound _ _ move_failure_reported S env s e Hmove) as [Hnormal Hshown].
    auto using acquire_reaches_loading.
  - intros s. exact (every_run_sound _ _ failed_fetch_stops S env s).
  - intros s. exact (every_run_sound _ _ exhausted_extraction_stops S env s).
  - intros s. exact (every_run_sound _ _ missing_folder_stops S env s).
Qed.

(** C8. A run that finds [atp_data] present and non-empty asks those two
    questions and nothing else: no fetch, no write to the disk, and the
    state of the world is what the two questions left.  And whenever the
    cached archive exists, no run fetches it again, also with [atp_data]
    absent. *)
Theorem ensure_primary_is_idempotent :
  (forall s s1 s2 x l,
      env _ (PathExists "atp_data") s = (true, s1) ->
      env _ (ListDir "atp_data") s1 = (Ok (x :: l), s2) ->
      run env ensure_primary s
      = (Normal tt, s2, [LExists "atp_data" true; LListDir "atp_data" (Ok (x :: l))])
      /\ fetches (trace_of env ensure_primary s) = 0
      /\ writes (trace_of env ensure_primary s) = 0)
  /\ (forall s,
        In (LExists zipped_data_path true) (trace_of env ensure_primary s) ->
        fetches (trace_of env ensure_primary s) = 0).
Proof.
  split.
  - intros s s1 s2 x l Hexists Hlist.
    assert (Hrun : run env ensure_primary s
                   = (Normal tt, s2,
                      [LExists "atp_data" true; LListDir "atp_data" (Ok (x :: l))])).
    { unfold ensure_primary. cbn. rewrite Hexists. cbn. rewrite Hlist. reflexivity. }
    unfold trace_of. rewrite Hrun. done.
  - intros s. exact (every_run_sound _ _ cached_archive_is_not_fetched S env s).
Qed.

End AnyEnvironment.

(** Instances: a rename that is refused, a server that cannot be reached,
    a disk that is full, an archive with another folder in it. *)
Lemma move_failure_is_not_fatal_witness :
  (In (LFs (Rename extracted_dir "atp_data") (Raise "[Errno 13] Permission denied"))
      (trace_of (sim rename_broken) ensure_primary blank)
   /\ result_of (sim rename_broken) ensure_primary blank = Normal tt
   /\ loading_started (trace_of (sim rename_broken) acquire blank))
  /\ (In (LHttpGet DATA_URL (Raise "Connection refused"))
         (trace_of (sim offline) ensure_primary blank)
      /\ result_of (sim offline) ensure_primary blank = Stopped)
  /\ (failed_extracts (trace_of (sim extraction_broken) ensure_primary blank) = 3
      /\ result_of (sim extraction_broken) ensure_primary blank = Stopped)
  /\ (In (LExists extracted_dir false) (trace_of (sim renamed_upstream) ensure_primary blank)
      /\ result_of (sim renamed_upstream) ensure_primary blank = Stopped).
Proof.
  assert (Hrename :
            In (LFs (Rename extracted_dir "atp_data") (Raise "[Errno 13] Permission denied"))
               (trace_of (sim rename_broken) ensure_primary blank))
    by (vm_compute; repeat first [left; reflexivity | right]).
  assert (Hfetch : In (LHttpGet DATA_URL (Raise "Connection refused"))
                      (trace_of (sim offline) ensure_primary blank))
    by (vm_compute; repeat first [left; reflexivity | right]).
  assert (Hfailed : failed_extracts (trace_of (sim extraction_broken) ensure_primary blank) = 3)
    by reflexivity.
  assert (Hmissing : In (LExists extracted_dir false)
                        (trace_of (sim renamed_upstream) ensure_primary blank))
    by (vm_compute; repeat first [left; reflexivity | right]).
  split; [| split; [| split]].
  - destruct (move_failure_is_not_fatal (sim rename_broken)) as (Hmove & _).
    destruct (Hmove blank _ (or_intror Hrename)) as (Hnormal & _ & Hloading).
    split; [exact Hrename |]. split; [exact Hnormal | exact Hloading].
  - destruct (move_failure_is_not_fatal (sim offline)) as (_ & Hstop & _).
    split; [exact Hfetch | exact (Hstop blank _ _ Hfetch)].
  - destruct (move_failure_is_not_fatal (sim extraction_broken)) as (_ & _ & Hstop & _).
    split; [exact Hfailed | exact (Hstop blank Hfailed)].
  - destruct (move_failure_is_not_fatal (sim renamed_upstream)) as (_ & _ & _ & Hstop).
    split; [exact Hmissing | exact (Hstop blank Hmissing)].
Defined.

(** Instances: the second of two starts on a healthy setup, and a start
    with only the cached archive on disk. *)
Lemma ensure_primary_is_idempotent_witness :
  result_of (sim healthy) ensure_primary blank = Normal tt
  /\ run (sim healthy) ensure_primary (state_after (sim healthy) ensure_primary blank)
     = (Normal tt, state_after (sim healthy) ensure_primary blank,
        [LExists "atp_data" true;
         LListDir "atp_data"
           (Ok ["atp_matches_2019.csv"; "atp_matches_2020.csv"; "README.md"])])
  /\ (In (LExists zipped_data_path true) (trace_of (sim healthy) ensure_primary zip_only)
      /\ fetches (trace_of (sim healthy) ensure_primary zip_only) = 0).
Proof.
  destruct (ensure_primary_is_idempotent (sim healthy)) as [Hsecond Hcached].
  split; [reflexivity |]. split.
  - apply (Hsecond (state_after (sim healthy) ensure_primary blank)
             (state_after (sim healthy) ensure_primary blank)
             (state_after (sim healthy) ensure_primary blank)
             "atp_matches_2019.csv" ["atp_matches_2020.csv"; "README.md"]);
      vm_compute; reflexivity.
  - assert (Hin : In (LExists zipped_data_path true)
                     (trace_of (sim healthy) ensure_primary zip_only))
      by (vm_compute; repeat first [left; reflexivity | right]).
    split; [exact Hin | exact (Hcached zip_only Hin)].
Defined.

(** ** Boolean indexing and the null filter *)

Lemma getitem_ok df c col :
  getitem df c = Ok col ->
  c ∈ columns df /\ col = (fun r : gmap string string => r !! c) <$> rows df.
Proof.
  unfold getitem. case_bool_decide; [| discriminate].
  intros [= <-]. done.
Qed.

Lemma getitem_present df c :
  c ∈ columns df -> getitem df c = Ok ((fun r : gmap string string => r !! c) <$> rows df).
Proof. intros H. unfold getitem. by rewrite bool_decide_eq_true_2. Qed.

(** A mask computed row by row selects the rows that satisfy it. *)
Lemma boolean_index_rows df (p q : gmap string string -> bool) :
  rows (boolean_index df (mask_and (p <$> rows df) (q <$> rows df)))
  = List.filter (fun r => p r && q r) (rows df).
Proof.
  unfold boolean_index, mask_and. cbn [rows].
  induction (rows df) as [| r rs IH]; [done |].
  cbn. destruct (p r && q r); case_decide; try done; cbn; try f_equal; exact IH.
Qed.

Lemma filter_filter {A : Type} (f g : A -> bool) (l : list A) :
  List.filter g (List.filter f l) = List.filter (fun x => f x && g x) l.
Proof.
  induction l as [| x l IH]; [done |]. cbn.
  destruct (f x); cbn; [destruct (g x) |]; by rewrite IH.
Qed.

Lemma null_free_b_spec r : null_free_b r = true <-> null_free r.
Proof.
  unfold null_free_b, null_free, match_columns. cbn [In].
  rewrite !andb_true_iff, !bool_decide_eq_true. split.
  - intros [[Hw Hl] [Hs Ht]] c [<- | [<- | [<- | [<- | []]]]]; done.
  - intros H. repeat split; apply H; auto.
Qed.

(** The null filter either misses a column or keeps exactly the rows with
    all four cells present, in order, under the same columns. *)
Lemma drop_null_rows_ok df df' :
  drop_null_rows df = Ok df' ->
  columns df' = columns df
  /\ (forall c, In c match_columns -> c ∈ columns df)
  /\ rows df' = List.filter null_free_b (rows df).
Proof.
  unfold drop_null_rows, mbind, result_bind.
  destruct (getitem df "winner_name") as [w | ?] eqn:Hw; [| discriminate].
  destruct (getitem df "loser_name") as [l | ?] eqn:Hl; [| discriminate].
  apply getitem_ok in Hw as [Hcw ->]. apply getitem_ok in Hl as [Hcl ->].
  unfold notnull. rewrite <- !list_fmap_compose.
  set (df1 := boolean_index df _).
  assert (Hrows1 : rows df1
                   = List.filter (fun r => bool_decide (is_Some (r !! "winner_name"))
                                           && bool_decide (is_Some (r !! "loser_name")))
                       (rows df))
    by apply (boolean_index_rows df).
  destruct (getitem df1 "surface") as [s | ?] eqn:Hs; [| discriminate].
  destruct (getitem df1 "tourney_level") as [t | ?] eqn:Ht; [| discriminate].
  apply getitem_ok in Hs as [Hcs ->]. apply getitem_ok in Ht as [Hct ->].
  rewrite <- !list_fmap_compose. intros [= <-].
  split; [reflexivity |]. split.
  - intros c [<- | [<- | [<- | [<- | []]]]]; done.
  - etransitivity; [apply (boolean_index_rows df1) |].
    rewrite Hrows1. apply filter_filter.
Qed.

Lemma drop_null_rows_dataset df df' : drop_null_rows df = Ok df' -> dataset df'.
Proof.
  intros (Hcols & Hpresent & Hrows)%drop_null_rows_ok. split.
  - intros c Hc. rewrite Hcols. auto.
  - rewrite Hrows. apply Forall_forall. intros r Hr.
    apply list_elem_of_In, filter_In in Hr as [_ Hr]. by apply null_free_b_spec.
Qed.

(** ** The loading loop and the merge *)

Lemma collect_app {B : Type} (g : entry -> option B) (t1 t2 : list entry) :
  collect g (t1 ++ t2) = (collect g t1 ++ collect g t2)%list.
Proof.
  induction t1 as [| x t1 IH]; cbn; [done |]. destruct (g x); cbn; by rewrite IH.
Qed.

Lemma collect_nil_of_forallb {B : Type} (f : entry -> bool) (g : entry -> option B)
    (t : list entry) :
  (forall x, f x = true -> g x = None) ->
  forallb f t = true -> collect g t = [].
Proof.
  intros Hfg. induction t as [| x t IH]; cbn; [done |].
  intros [Hx Ht]%andb_prop. rewrite (Hfg x Hx). auto.
Qed.

(** The loop of lines 119-124 reads every file once, in order, never ends
    the run, keeps the tables that parse and owes one warning per file that
    does not. *)
Lemma read_all_spec all_files :
  forall dfs,
    every_run (read_all all_files dfs)
      (fun o t =>
         o = Normal (dfs ++ parsed t)%list
         /\ reads t = all_files
         /\ shown Warning t = skipped t
         /\ forallb is_read t = true).
Proof.
  induction all_files as [| f rest IH]; intros dfs; cbn [read_all].
  - cbn. by rewrite app_nil_r.
  - repeat every_step.
    all: eapply every_run_mono; [| apply IH].
    all: intros o t (-> & Hreads & Hshown & Hall).
    all: unfold reads, parsed, skipped, shown in *; cbn.
    all: rewrite Hreads, ?Hshown, Hall; try rewrite <- app_assoc; done.
Qed.

(** Lines 126-138 end as [merged] says and show nothing but the error or
    the success line. *)
Lemma assemble_spec dfs kaggle_df :
  every_run (assemble dfs kaggle_df)
    (fun o t =>
       o = merged dfs kaggle_df
       /\ forallb is_verdict t = true
       /\ (o = Stopped -> shown Error t = ["No valid match data found."])).
Proof.
  unfold assemble, merged.
  destruct (if (0 <? n_rows kaggle_df)%nat then (dfs ++ [kaggle_df])%list else dfs)
    as [| d ds]; cbn [falsy]; repeat every_step; [done |].
  cbn [pd_concat lift mbind result_bind]. repeat every_step.
  destruct (drop_null_rows _); cbn; done.
Qed.

Lemma load_and_merge_runs :
  every_run load_and_merge
    (fun o t =>
       match secondary_read t with
       | Some (Raise e) => o = Raised e
       | _ =>
           reads (primary_part t) = sorted (globbed t)
           /\ shown Warning t = skipped (primary_part t)
           /\ o = merged (parsed (primary_part t)) (secondary_table t)
           /\ (o = Stopped -> shown Error t = ["No valid match data found."])
       end).
Proof.
  unfold load_and_merge. repeat every_step; try reflexivity.
  all: eapply every_run_mono; [| apply read_all_spec].
  all: intros o tr (-> & Hreads & Hshown & Hread).
  all: eapply every_run_mono; [| apply assemble_spec].
  all: intros o ta (-> & Hverdict & Hstop).
  all: cbn [secondary_read secondary_table primary_part globbed app].
  all: assert (Hra : reads ta = [])
         by (apply (collect_nil_of_forallb is_verdict); [by intros [] | done]).
  all: assert (Hpa : parsed ta = [])
         by (apply (collect_nil_of_forallb is_verdict); [by intros [] | done]).
  all: assert (Hsa : skipped ta = [])
         by (apply (collect_nil_of_forallb is_verdict); [by intros [] | done]).
  all: assert (Hwa : shown Warning ta = [])
         by (apply (collect_nil_of_forallb is_verdict); [by intros [| | | | | | | [] | | | | |] | done]).
  all: assert (Her : shown Error tr = [])
         by (apply (collect_nil_of_forallb is_read); [by intros [| | | | | | | [] | | | | |] | done]).
  all: unfold reads, parsed, skipped, shown in *; cbn [collect].
  all: rewrite ?collect_app, ?Hra, ?Hpa, ?Hsa, ?Hwa, ?Her, ?app_nil_r, ?app_nil_l.
  all: repeat split; try done.
Qed.

Ltac case_result :=
  match goal with
  | |- context [match ?r with Ok _ => _ | Raise _ => _ end] => destruct r
  end.

Lemma merged_stopped dfs kaggle_df :
  merged dfs kaggle_df = Stopped <-> dfs = [] /\ n_rows kaggle_df = 0.
Proof.
  unfold merged. destruct (0 <? n_rows kaggle_df)%nat eqn:Hrows.
  - apply Nat.ltb_lt in Hrows. split; [| lia].
    destruct dfs; cbn [app]; case_result; discriminate.
  - apply Nat.ltb_ge in Hrows. split.
    + destruct dfs; [split; [done | lia] |]. case_result; discriminate.
    + by intros [-> _].
Qed.

Lemma merged_dataset dfs kaggle_df df : merged dfs kaggle_df = Normal df -> dataset df.
Proof.
  unfold merged. destruct (if (0 <? n_rows kaggle_df)%nat then _ else _) as [| d ds];
    [discriminate |].
  unfold mbind, result_bind. destruct (pd_concat (d :: ds)) as [raw |]; [| discriminate].
  destruct (drop_null_rows raw) as [df' |] eqn:Hdrop; [| discriminate].
  intros [= <-]. by eapply drop_null_rows_dataset.
Qed.

Lemma getitem_raise df c e :
  getitem df c = Raise e -> (c ∉ columns df) /\ e = "'" ++ c ++ "'".
Proof.
  unfold getitem. case_bool_decide; [discriminate |]. intros [= <-]. done.
Qed.

(** The null filter raises only the [KeyError] of a missing column. *)
Lemma drop_null_rows_raises df e :
  drop_null_rows df = Raise e ->
  exists c, In c match_columns /\ (c ∉ columns df) /\ e = "'" ++ c ++ "'".
Proof.
  unfold drop_null_rows, mbind, result_bind.
  destruct (getitem df "winner_name") as [w | e1] eqn:Hw.
  2: { intros [= <-]. apply getitem_raise in Hw. exists "winner_name". cbn. tauto. }
  destruct (getitem df "loser_name") as [l | e2] eqn:Hl.
  2: { intros [= <-]. apply getitem_raise in Hl. exists "loser_name". cbn. tauto. }
  destruct (getitem _ "surface") as [s | e3] eqn:Hs.
  2: { intros [= <-]. apply getitem_raise in Hs. exists "surface". cbn in *. tauto. }
  destruct (getitem _ "tourney_level") as [t | e4] eqn:Ht; [discriminate |].
  intros [= <-]. apply getitem_raise in Ht. exists "tourney_level". cbn in *. tauto.
Qed.

Lemma merged_raised dfs kaggle_df e :
  merged dfs kaggle_df = Raised e ->
  exists c, In c match_columns /\ e = "'" ++ c ++ "'".
Proof.
  unfold merged. destruct (if (0 <? n_rows kaggle_df)%nat then _ else _) as [| d ds];
    [discriminate |].
  unfold mbind, result_bind. cbn [pd_concat].
  destruct (drop_null_rows _) as [df |] eqn:Hdrop; [discriminate |].
  intros [= <-]. apply drop_null_rows_raises in Hdrop as (c & Hc & _ & He). eauto.
Qed.

Section Loading.
Context {S : Type} (env : forall X : Type, event X -> S -> X * S).

(** C4, as the code has it.  In a run whose read of the secondary file does
    not raise: every per-year file of the sorted glob is read once, in
    order; each one that fails to parse is answered by its "Skipping"
    warning and the loop goes on; the run is stopped exactly when no table
    was loaded (no per-year file parsed, no row in the secondary table),
    with the "No valid match data found." error; otherwise it ends as the
    merge and the null filter of the loaded tables end, which is normally
    or with the [KeyError] of one of the four columns. *)
Theorem load_and_merge_skips_and_stops s :
  (forall e, secondary_read (trace_of env load_and_merge s) <> Some (Raise e)) ->
  reads (primary_part (trace_of env load_and_merge s))
  = sorted (globbed (trace_of env load_and_merge s))
  /\ shown Warning (trace_of env load_and_merge s)
     = skipped (primary_part (trace_of env load_and_merge s))
  /\ (result_of env load_and_merge s = Stopped <-> no_table (trace_of env load_and_merge s))
  /\ (result_of env load_and_merge s = Stopped ->
      shown Error (trace_of env load_and_merge s) = ["No valid match data found."])
  /\ result_of env load_and_merge s
     = merged (parsed (primary_part (trace_of env load_and_merge s)))
         (secondary_table (trace_of env load_and_merge s))
  /\ (forall e,
        result_of env load_and_merge s = Raised e ->
        exists c, In c match_columns /\ e = "'" ++ c ++ "'").
Proof.
  intros Hsecondary.
  pose proof (every_run_sound _ _ load_and_merge_runs S env s) as Hrun. cbn beta in Hrun.
  destruct (secondary_read (trace_of env load_and_merge s)) as [[k | e] |] eqn:Hread;
    [| by destruct (Hsecondary e) |].
  all: destruct Hrun as (Hreads & Hshown & Hmerged & Hstop).
  all: split; [exact Hreads |]; split; [exact Hshown |].
  all: split; [rewrite Hmerged; apply merged_stopped |].
  all: split; [exact Hstop |]; split; [exact Hmerged |].
  all: intros e He; rewrite Hmerged in He; by eapply merged_raised.
Qed.


(** C10. A secondary table without rows is handled as the [pd.DataFrame()]
    of an absent file: lines 126-138 are the same script for both; and in a
    run whose secondary file parsed to no rows, the outcome is the one the
    per-year tables alone determine: stopped when none of them parsed,
    else their merge and null filter. *)
Theorem empty_secondary_is_absent :
  (forall dfs kaggle_df,
      n_rows kaggle_df = 0 -> assemble dfs kaggle_df = assemble dfs empty_frame)
  /\ (forall s kaggle_df,
        secondary_read (trace_of env load_and_merge s) = Some (Ok kaggle_df) ->
        n_rows kaggle_df = 0 ->
        result_of env load_and_merge s
        = match parsed (primary_part (trace_of env load_and_merge s)) with
          | [] => Stopped
          | tables =>
              match pd_concat tables ≫= drop_null_rows with
              | Ok df => Normal df
              | Raise e => Raised e
              end
          end).
Proof.
  split.
  - intros dfs kaggle_df Hrows. unfold assemble. rewrite Hrows. reflexivity.
  - intros s kaggle_df Hread Hrows.
    pose proof (every_run_sound _ _ load_and_merge_runs S env s) as Hrun. cbn beta in Hrun.
    unfold secondary_table in Hrun. rewrite Hread in Hrun.
    destruct Hrun as (_ & _ & -> & _).
    unfold merged. rewrite Hrows. reflexivity.
Qed.

End Loading.

(** The claim C4 as the specification words it fails where a table is
    loaded and the run is still ended: the only per-year file parses, to a
    table that has no [winner_name] column, and line 137 raises. *)
Lemma abort_with_a_table_loaded :
  ~ (aborted (result_of (sim wrong_schema) load_and_merge (primed ["atp_matches_2019.csv"]))
     <-> no_table (trace_of (sim wrong_schema) load_and_merge (primed ["atp_matches_2019.csv"]))).
Proof.
  intros [Habort _].
  assert (Hraised : result_of (sim wrong_schema) load_and_merge (primed ["atp_matches_2019.csv"])
                    = Raised "'winner_name'") by reflexivity.
  rewrite Hraised in Habort. destruct (Habort I) as [Hparsed _].
  vm_compute in Hparsed. discriminate Hparsed.
Qed.

(** The other way the load ends with a table at hand: the secondary file is
    there and cannot be parsed; line 117 reads it outside any [try]. *)
Example unparsable_secondary_ends_the_run :
  result_of (sim secondary_corrupt) load_and_merge (primed ["atp_matches_2019.csv"])
  = Raised "No columns to parse from file".
Proof. reflexivity. Qed.

(** An instance of C4: three per-year files of which two cannot be read,
    and a secondary file with a header only. *)
Lemma load_and_merge_skips_and_stops_witness :
  (forall e,
      secondary_read
        (trace_of (sim mixed) load_and_merge
           (primed ["atp_matches_2019.csv"; "atp_matches_2021.csv"; "atp_matches_2022.csv"]))
      <> Some (Raise e))
  /\ shown Warning
       (trace_of (sim mixed) load_and_merge
          (primed ["atp_matches_2019.csv"; "atp_matches_2021.csv"; "atp_matches_2022.csv"]))
     = skipped
         (primary_part
            (trace_of (sim mixed) load_and_merge
               (primed ["atp_matches_2019.csv"; "atp_matches_2021.csv";
                        "atp_matches_2022.csv"])))
  /\ length
       (shown Warning
          (trace_of (sim mixed) load_and_merge
             (primed ["atp_matches_2019.csv"; "atp_matches_2021.csv";
                      "atp_matches_2022.csv"]))) = 2.
Proof.
  assert (Hsecondary :
            forall e,
              secondary_read
                (trace_of (sim mixed) load_and_merge
                   (primed ["atp_matches_2019.csv"; "atp_matches_2021.csv";
                            "atp_matches_2022.csv"]))
              <> Some (Raise e)) by (intros e; vm_compute; discriminate).
  split; [exact Hsecondary |].
  destruct (load_and_merge_skips_and_stops (sim mixed) _ Hsecondary) as (_ & Hshown & _).
  split; [exact Hshown | reflexivity].
Defined.


(** An instance of C10: the secondary file has its header and no row. *)
Lemma empty_secondary_is_absent_witness :
  secondary_read (trace_of (sim mixed) load_and_merge (primed ["atp_matches_2021.csv"]))
  = Some (Ok (Table match_columns []))
  /\ n_rows (Table match_columns []) = 0
  /\ result_of (sim mixed) load_and_merge (primed ["atp_matches_2021.csv"]) = Stopped
  /\ assemble [] (Table match_columns []) = assemble [] empty_frame.
Proof.
  assert (Hread : secondary_read
                    (trace_of (sim mixed) load_and_merge (primed ["atp_matches_2021.csv"]))
                  = Some (Ok (Table match_columns []))) by reflexivity.
  split; [exact Hread |]. split; [reflexivity |].
  destruct (empty_secondary_is_absent (sim mixed)) as [Hsame Hrun].
  split.
  - rewrite (Hrun (primed ["atp_matches_2021.csv"]) _ Hread eq_refl). reflexivity.
  - apply Hsame. reflexivity.
Defined.


(** ** The head-to-head subset *)

Lemma both_selected_spec player1 player2 r :
  both_selected player1 player2 r = true
  <-> strictly_between player1 player2 r \/ same_player_twice player1 player2 r.
Proof.
  unfold both_selected, strictly_between, same_player_twice.
  rewrite andb_true_iff, !bool_decide_eq_true, !elem_of_cons, !elem_of_nil.
  generalize (r !! "winner_name") (r !! "loser_name"). intros w l.
  intuition congruence.
Qed.

Lemma head_to_head_rows df player1 player2 md :
  head_to_head df player1 player2 = Ok md ->
  columns md = columns df
  /\ rows md = List.filter (both_selected player1 player2) (rows df).
Proof.
  unfold head_to_head, mbind, result_bind.
  destruct (getitem df "winner_name") as [w | ?] eqn:Hw; [| discriminate].
  destruct (getitem df "loser_name") as [l | ?] eqn:Hl; [| discriminate].
  apply getitem_ok in Hw as [_ ->]. apply getitem_ok in Hl as [_ ->].
  unfold isin. rewrite <- !list_fmap_compose. intros [= <-].
  split; [reflexivity |]. apply (boolean_index_rows df).
Qed.


(** C1, as the code has it.  The subset keeps the columns and holds, in the
    order of the data set and as often as they occur there, the rows whose
    winner and whose loser are both among the two selected players: a row is
    in it exactly when it is a match strictly between the two players or
    names one of them as winner and as loser. *)
Theorem head_to_head_subset df player1 player2 md :
  head_to_head df player1 player2 = Ok md ->
  columns md = columns df
  /\ rows md = List.filter (both_selected player1 player2) (rows df)
  /\ forall r,
       In r (rows md)
       <-> In r (rows df)
           /\ (strictly_between player1 player2 r \/ same_player_twice player1 player2 r).
Proof.
  intros [Hcols Hrows]%head_to_head_rows.
  split; [exact Hcols |]. split; [exact Hrows |].
  intros r. rewrite Hrows, filter_In, both_selected_spec. reflexivity.
Qed.

(** The claim C1 as the specification words it fails on a row that names a
    selected player twice: line 150 keeps it, and it is no match between
    the two players. *)
Lemma same_player_row_is_kept :
  exists md,
    head_to_head walkover (Some "Rafael Nadal") (Some "Roger Federer") = Ok md
    /\ ~ exactly_the_matches_between walkover md (Some "Rafael Nadal") (Some "Roger Federer").
Proof.
  eexists. split; [reflexivity |].
  intros Hexact.
  destruct (proj1 (Hexact (match_row "Rafael Nadal" "Rafael Nadal" "Clay" "G")))
    as [_ [[_ Hloser] | [Hwinner _]]].
  - left. reflexivity.
  - vm_compute in Hloser. discriminate Hloser.
  - vm_compute in Hwinner. discriminate Hwinner.
Qed.

Lemma head_to_head_subset_witness :
  head_to_head rivalry (Some "Rafael Nadal") (Some "Roger Federer")
  = Ok (Table match_columns
          [ match_row "Rafael Nadal" "Roger Federer" "Clay" "G";
            match_row "Roger Federer" "Rafael Nadal" "Grass" "G" ])
  /\ [ match_row "Rafael Nadal" "Roger Federer" "Clay" "G";
       match_row "Roger Federer" "Rafael Nadal" "Grass" "G" ]
     = List.filter (both_selected (Some "Rafael Nadal") (Some "Roger Federer")) (rows rivalry).
Proof.
  assert (H : head_to_head rivalry (Some "Rafael Nadal") (Some "Roger Federer")
              = Ok (Table match_columns
                      [ match_row "Rafael Nadal" "Roger Federer" "Clay" "G";
                        match_row "Roger Federer" "Rafael Nadal" "Grass" "G" ]))
    by reflexivity.
  split; [exact H |].
  exact (proj1 (proj2 (head_to_head_subset _ _ _ _ H))).
Defined.

(** ** Prediction without head-to-head data *)


Section Prediction.
Context {S : Type} (env : forall X : Type, event X -> S -> X * S).


End Prediction.

(** With rows that never name one player twice, "no match" is "no match
    strictly between the two". *)
Lemma no_strict_match_is_no_match df player1 player2 :
  (forall r, In r (rows df) -> r !! "winner_name" <> r !! "loser_name") ->
  (forall r, In r (rows df) -> ~ strictly_between player1 player2 r) ->
  no_match_between df player1 player2.
Proof.
  intros Hdistinct Hstrict r Hr [Hs | [Hsame _]].
  - by apply (Hstrict r).
  - by apply (Hdistinct r).
Qed.


(** ** Encoding the query *)

Lemma elem_of_unique_from x seen l :
  x ∈ unique_from seen l <-> x ∈ l /\ x ∉ seen.
Proof.
  revert seen. induction l as [| y l IH]; intros seen; cbn.
  - rewrite elem_of_nil. tauto.
  - case_bool_decide as Hy.
    + rewrite IH, elem_of_cons. split; [tauto |].
      intros [[-> | Hl] Hx]; tauto.
    + rewrite !elem_of_cons, IH, elem_of_cons. split.
      * intros [-> | [Hl Hx]]; [tauto |]. split; [tauto |]. intros Hs. apply Hx. tauto.
      * intros [[-> | Hl] Hx]; [tauto |].
        destruct (decide (x = y)) as [-> | Hne]; [tauto |]. right. split; [done |].
        intros [? | ?]; tauto.
Qed.




Lemma surface_is_not_level v l : dummy_label "surface" v <> dummy_label "tourney_level" l.
Proof. discriminate. Qed.

Lemma query_labels_NoDup surface tourney_level : NoDup (query_labels surface tourney_level).
Proof.
  unfold query_labels. destruct surface as [s |], tourney_level as [l |]; cbn.
  - apply NoDup_cons. split; [| apply NoDup_singleton].
    rewrite list_elem_of_singleton. apply surface_is_not_level.
  - apply NoDup_singleton.
  - apply NoDup_singleton.
  - apply NoDup_nil_2.
Qed.




(** ** Which per-year files are read *)

Lemma app_all_files_spec globbed f :
  In f (app_all_files globbed) -> year_in_range f = true /\ In f globbed.
Proof.
  unfold app_all_files. intros [Hf Hyear]%filter_In. split; [exact Hyear |].
  apply list_elem_of_In. apply list_elem_of_In in Hf.
  unfold sorted in Hf. by rewrite merge_sort_Permutation in Hf.
Qed.

Lemma check_all_spec all_files :
  forall valid_files,
    every_run (check_all all_files valid_files)
      (fun o t =>
         exists valid_files',
           o = Normal valid_files'
           /\ (forall f, In f valid_files' -> In f valid_files \/ In f all_files)
           /\ (forall f n r, In (LReadCsv f n r) t -> In f all_files)).
Proof.
  induction all_files as [| f rest IH]; intros valid_files; cbn [check_all].
  - exists valid_files. cbn. split; [done |]. split; [auto | tauto].
  - repeat every_step.
    all: eapply every_run_mono; [| apply IH].
    all: intros o t (valid_files' & -> & Hvalid & Hreads); exists valid_files'.
    all: split; [done |]; split.
    + intros g Hg. destruct (Hvalid g Hg) as [Hv | Hr]; [| cbn; tauto].
      apply in_app_or in Hv as [Hv | [<- | []]]; cbn; tauto.
    + intros g n r [[= <- _ _] | Hin]; cbn; [tauto |]. right. eauto.
    + intros g Hg. destruct (Hvalid g Hg) as [Hv | Hr]; cbn; tauto.
    + intros g n r [[= <- _ _] | [Hw | Hin]]; cbn; [tauto | discriminate |]. right. eauto.
Qed.

Lemma read_valid_spec valid_files :
  every_run (read_valid valid_files)
    (fun o t => forall f n r, In (LReadCsv f n r) t -> In f valid_files).
Proof.
  induction valid_files as [| f rest IH]; cbn [read_valid].
  - cbn. tauto.
  - repeat every_step.
    + eapply every_run_mono; [| apply IH]. intros o t Hreads.
      destruct o as [ts | e |]; script_cbn; rewrite ?app_nil_r.
      all: intros g n r [[= <- _ _] | Hin]; cbn; [tauto |]; right; eauto.
    + intros g n r [[= <- _ _] | []]. cbn. tauto.
Qed.

(** In [tennis_match_predictor-app.py] a file is read only when the glob
    returned it and its name carries a year of 1981-2024 before the
    extension. *)
Lemma app_load_reads_years_in_range :
  every_run app_load
    (fun o t =>
       forall f n r,
         In (LReadCsv f n r) t ->
         year_in_range f = true /\ In f (globbed t)).
Proof.
  unfold app_load. every_step. every_step. every_step.
  destruct (app_all_files x) as [| f0 files] eqn:Hfiles; cbn [falsy].
  - repeat every_step. intros f n r H. locate H.
  - every_step. every_step.
    eapply every_run_mono; [| apply check_all_spec].
    intros o t (valid_files & -> & Hvalid & Hchecked).
    assert (Hsel : forall f, In f valid_files -> year_in_range f = true /\ In f x).
    { intros f Hf. apply app_all_files_spec. rewrite Hfiles.
      destruct (Hvalid f Hf) as [[] | Hin]. exact Hin. }
    destruct valid_files as [| v vs]; cbn [falsy]; repeat every_step.
    + intros f n r [H | H]; [discriminate H |].
      apply in_app_or in H as [H | H]; [| locate H].
      cbn [globbed]. apply app_all_files_spec. rewrite Hfiles. eauto.
    + eapply every_run_mono; [| apply (read_valid_spec (v :: vs))].
      intros o t' Hread.
      assert (Hall : forall f n r,
                 In (LReadCsv f n r) (t ++ t') ->
                 year_in_range f = true /\ In f x).
      { intros f n r [H | H]%in_app_or.
        - apply app_all_files_spec. rewrite Hfiles. eauto.
        - apply Hsel. eauto. }
      destruct o as [tables | e |]; cbn [lift].
      * destruct (pd_concat tables); script_cbn; rewrite ?app_nil_r;
          intros f n r [H | H]; try discriminate H; cbn [globbed]; eauto.
      * script_cbn. intros f n r [H | H]; try discriminate H. cbn [globbed]. eauto.
      * script_cbn. intros f n r [H | H]; try discriminate H. cbn [globbed]. eauto.
Qed.

(** C2 on [tennis_match_predictor-v12.py]: line 116 takes every file the
    glob returns.  With a 1968 file in the primary directory, whose name
    fails the year test of the other program, the 1968 row is in the data
    set. *)
Theorem v12_reads_files_outside_the_range :
  year_in_range "atp_data/atp_matches_1968.csv" = false
  /\ exists df,
       result_of (sim with_1968) load_and_merge
         (primed ["atp_matches_1968.csv"; "atp_matches_2019.csv"]) = Normal df
       /\ In (match_row "Rod Laver" "Ken Rosewall" "Grass" "G") (rows df).
Proof.
  split; [reflexivity |]. eexists. split; [reflexivity |]. left. reflexivity.
Qed.

(** The same directory under [tennis_match_predictor-app.py]: the 1968 file
    is left out. *)
Example app_leaves_1968_out :
  exists df,
    result_of (sim with_1968) app_load
      (primed ["atp_matches_1968.csv"; "atp_matches_2019.csv"]) = Normal df
    /\ rows df = [match_row "Rafael Nadal" "Roger Federer" "Clay" "G"].
Proof. eexists. split; reflexivity. Qed.

Example year_in_range_examples :
  year_in_range "atp_data/atp_matches_1981.csv" = true
  /\ year_in_range "atp_data/atp_matches_2024.csv" = true
  /\ year_in_range "atp_data/atp_matches_1980.csv" = false
  /\ year_in_range "atp_data/atp_matches_2025.csv" = false
  /\ year_in_range "atp_data/atp_matches_amateur.csv" = false
  /\ year_in_range "atp_data/atp_matches_qual_chall_1990.csv" = true.
Proof. repeat split; reflexivity. Qed.

(** ** More on the extraction helper *)

Lemma try_extract_loop_runs z p attempts :
  every_run (try_extract_loop z p attempts)
    (fun o t =>
       exists (b : bool) (k : nat),
         o = Normal b
         /\ failed_extracts t = k
         /\ extract_attempts t = k + (if b then 1 else 0)
         /\ sleeps t
            = (fun attempt => (1.5 * inject_Z (Z.of_nat (attempt + 1)))%Q) <$> take k attempts
         /\ (if b then k < length attempts /\ last t = Some (LFs (ExtractAll z p) (Ok tt))
             else k = length attempts
                  /\ (last t = None \/ exists q, last t = Some (LSleep q)))).
Proof.
  induction attempts as [| attempt rest IH]; cbn [try_extract_loop].
  - exists false, 0. cbn. tauto.
  - repeat every_step.
    + exists true, 0. cbn. repeat split; lia.
    + eapply every_run_mono; [| apply IH].
      intros o t (b & k & -> & Hfailed & Hattempts & Hsleeps & Hlast).
      exists b, (S k). split; [done |].
      unfold failed_extracts, extract_attempts, sleeps in *. cbn.
      rewrite Hfailed, Hattempts, Hsleeps.
      split; [done |]. split; [done |]. split; [done |].
      destruct b.
      * destruct Hlast as [Hk Hlast]. split; [lia |].
        destruct t; [discriminate Hlast | exact Hlast].
      * destruct Hlast as [-> Hlast]. split; [done |]. right.
        destruct t as [| x t]; [eauto |].
        destruct Hlast as [Hlast | Hlast]; [by apply last_None in Hlast | exact Hlast].
Qed.

Section ExtractionBudget.
Context {S : Type} (env : forall X : Type, event X -> S -> X * S).

(** X1. Whatever the retry budget and whatever the attempts do, the helper
    ends normally and stops at the first success: it returns [True] exactly
    when its last call is a successful [extractall], which then is its only
    success; it returns [False] after as many failures as the budget (none
    for a budget of 0); and the pauses are those of the failed attempts,
    1.5 s times 1, 2, ..., in that order, none after a success. *)
Theorem try_extract_all_any_budget z p max_retries s :
  exists (b : bool),
    result_of env (try_extract_all z p max_retries) s = Normal b
    /\ extract_attempts (trace_of env (try_extract_all z p max_retries) s)
       = failed_extracts (trace_of env (try_extract_all z p max_retries) s)
         + (if b then 1 else 0)
    /\ extract_attempts (trace_of env (try_extract_all z p max_retries) s) <= max_retries
    /\ (b = true
        <-> last (trace_of env (try_extract_all z p max_retries) s)
            = Some (LFs (ExtractAll z p) (Ok tt)))
    /\ (b = false
        -> failed_extracts (trace_of env (try_extract_all z p max_retries) s) = max_retries)
    /\ sleeps (trace_of env (try_extract_all z p max_retries) s)
       = (fun attempt => (1.5 * inject_Z (Z.of_nat (attempt + 1)))%Q)
           <$> seq 0 (failed_extracts (trace_of env (try_extract_all z p max_retries) s)).
Proof.
  pose proof (every_run_sound _ _ (try_extract_loop_runs z p (seq 0 max_retries)) S env s)
    as Hrun.
  cbn beta in Hrun. fold (try_extract_all z p max_retries) in Hrun.
  destruct Hrun as (b & k & Ho & Hfailed & Hattempts & Hsleeps & Hlast).
  rewrite length_seq in Hlast.
  exists b. rewrite Ho, Hattempts, Hfailed, Hsleeps.
  assert (Hk : k <= max_retries) by (destruct b; lia).
  split; [done |]. split; [done |]. split; [destruct b; lia |].
  split; [| split].
  - destruct b; [tauto |]. split; [discriminate |].
    intros H. destruct Hlast as [_ [Hnone | [q Hq]]]; congruence.
  - intros ->. tauto.
  - f_equal. rewrite take_seq. f_equal. lia.
Qed.

End ExtractionBudget.

(** ** More on primary acquisition *)

Lemma ends_with_refl e : ends_with e e.
Proof. by exists "". Qed.

Lemma ends_with_app e a msg : ends_with e msg -> ends_with e (a ++ msg).
Proof.
  intros [prefix ->]. exists (a ++ prefix).
  induction a as [| c a IH]; [done |].
  change (String c (a ++ prefix ++ e) = String c ((a ++ prefix) ++ e)). by rewrite IH.
Qed.

Lemma told_app_l e t1 t2 : told e t1 -> told e (t1 ++ t2).
Proof. intros (k & m & H & Hm). exists k, m. split; [| done]. apply in_or_app. auto. Qed.

Lemma told_app_r e t1 t2 : told e t2 -> told e (t1 ++ t2).
Proof. intros (k & m & H & Hm). exists k, m. split; [| done]. apply in_or_app. auto. Qed.

Lemma told_cons e x t : told e t -> told e (x :: t).
Proof. intros (k & m & H & Hm). exists k, m. split; [| done]. right. exact H. Qed.

Lemma told_here e kind msg t : ends_with e msg -> told e (LSt kind msg :: t).
Proof. intros Hm. exists kind, msg. split; [| done]. left. reflexivity. Qed.

(** Find the message that reports [e] in a trace made of known entries and
    summarised parts. *)
Ltac find_told :=
  repeat first
    [ apply told_here; solve [repeat first [apply ends_with_refl | apply ends_with_app]]
    | match goal with
      | H : all_told ?t, Hin : raised_in _ ?t |- told _ (?t ++ _) =>
          apply told_app_l; apply H; exact Hin
      | H : all_told ?t, Hin : raised_in _ ?t |- told _ ?t => apply H; exact Hin
      end
    | apply told_cons
    | apply told_app_r ].

Lemma raised_in_cons e x t :
  raised_in e (x :: t) ->
  (exists op, x = LFs op (Raise e)) \/ (exists url, x = LHttpGet url (Raise e)) \/ raised_in e t.
Proof.
  intros [[op [H | H]] | [url [H | H]]]; unfold raised_in; eauto 6.
Qed.

Lemma raised_in_app e t1 t2 : raised_in e (t1 ++ t2) -> raised_in e t1 \/ raised_in e t2.
Proof.
  intros [[op [H | H]%in_app_or] | [url [H | H]%in_app_or]]; unfold raised_in; eauto 6.
Qed.

Lemma raised_in_nil e : ~ raised_in e [].
Proof. intros [[op []] | [url []]]. Qed.

(** Split a raised exception over a trace: it is one of the known entries
    or lies in one of the summarised parts. *)
Ltac split_raise H :=
  repeat match type of H with
         | raised_in _ [] => destruct (raised_in_nil _ H)
         | raised_in _ (_ :: _) =>
             apply raised_in_cons in H;
             destruct H as [[? H] | [[? H] | H]];
             [first [discriminate H | injection H as ? ?; subst]
             | first [discriminate H | injection H as ? ?; subst]
             |]
         | raised_in _ (_ ++ _) => apply raised_in_app in H; destruct H as [H | H]
         end.

Lemma clean_temp_told :
  every_run clean_temp
    (fun o t => o = Normal tt /\ forallb is_cleaning t = true /\ all_told t).
Proof.
  unfold clean_temp. repeat every_step; (split; [done |]; split; [done |]).
  all: intros err H; split_raise H; find_told.
Qed.

Lemma remove_temp_told :
  every_run remove_temp
    (fun o t => o = Normal tt /\ forallb is_cleaning t = true /\ all_told t).
Proof.
  unfold remove_temp. repeat every_step; (split; [done |]; split; [done |]).
  all: intros err H; split_raise H; find_told.
Qed.

Lemma try_extract_loop_told z p attempts :
  every_run (try_extract_loop z p attempts)
    (fun o t =>
       exists b : bool,
         o = Normal b /\ forallb is_extracting t = true /\ all_told t
         /\ (b = true -> In (LFs (ExtractAll z p) (Ok tt)) t)).
Proof.
  induction attempts as [| attempt rest IH]; cbn [try_extract_loop].
  - exists false. cbn. repeat split; try done. intros e H. destruct (raised_in_nil _ H).
  - repeat every_step.
    + exists true. cbn. repeat split; try tauto.
      intros err H. split_raise H.
    + eapply every_run_mono; [| apply IH].
      intros o t (b & -> & Hall & Htold & Hok). exists b.
      split; [done |]. split; [exact Hall |]. split; [| cbn; tauto].
      intros err H. split_raise H; find_told.
Qed.

Lemma try_extract_all_told z p :
  every_run (try_extract_all z p 3)
    (fun o t =>
       exists b : bool,
         o = Normal b /\ forallb is_extracting t = true /\ all_told t
         /\ (b = true -> In (LFs (ExtractAll z p) (Ok tt)) t)).
Proof. apply (try_extract_loop_told z p [0; 1; 2]). Qed.

(** As [segment_step], with the summaries that also say which exceptions
    were reported. *)
Ltac segment_told :=
  lazymatch goal with
  | |- every_run clean_temp _ =>
      let Hc := fresh "Hclean" in
      let Ht := fresh "Htold" in
      eapply every_run_mono; [| apply clean_temp_told];
      intros ? ? (-> & Hc & Ht); script_cbn
  | |- every_run remove_temp _ =>
      let Hc := fresh "Hremove" in
      let Ht := fresh "Htold" in
      eapply every_run_mono; [| apply remove_temp_told];
      intros ? ? (-> & Hc & Ht); script_cbn
  | |- every_run (try_extract_all _ _ 3) _ =>
      let b := fresh "extracted" in
      let He := fresh "Hextract" in
      let Ht := fresh "Htold" in
      let Hok := fresh "Hok" in
      eapply every_run_mono; [| apply try_extract_all_told];
      intros ? ? (b & -> & He & Ht & Hok); script_cbn
  | |- every_run ensure_primary _ => unfold ensure_primary
  | |- every_run download_primary _ => unfold download_primary
  | |- every_run stage_and_move _ => unfold stage_and_move
  | |- every_run fetch_archive _ => unfold fetch_archive
  | |- every_run move_into_place _ => unfold move_into_place
  | _ => every_step
  end.

Lemma primary_errors_are_told :
  every_run ensure_primary (fun o t => all_told t).
Proof.
  repeat segment_told.
  all: intros err H; split_raise H; find_told.
Qed.

Ltac in_trace :=
  cbn [In app];
  first [ assumption
        | left; reflexivity
        | right; in_trace
        | apply in_or_app; first [left; in_trace | right; in_trace] ].

Lemma only_listdir_escapes :
  every_run ensure_primary
    (fun o t =>
       forall e, o = Raised e ->
                 t = [LExists "atp_data" true; LListDir "atp_data" (Raise e)]).
Proof.
  repeat segment_step.
  all: intros err H; first [discriminate H | injection H as ->; reflexivity].
Qed.

Lemma corrupt_cache_stops :
  every_run ensure_primary
    (fun o t =>
       forall e,
         In (LExists zipped_data_path true) t ->
         In (LFs (ZipOpen zipped_data_path) (Raise e)) t ->
         o = Stopped
         /\ In (LSt Error ("Download failed: " ++ e)) t
         /\ fetches t = 0
         /\ writes t = 0).
Proof.
  repeat segment_step.
  all: intros err Hcached H; locate H.
  all: try (injection H as ->).
  all: try (locate Hcached; fail).
  all: split; [reflexivity |]; split; [show_in |]; split; reflexivity.
Qed.

Lemma old_directory_removed_with_replacement :
  every_run ensure_primary
    (fun o t =>
       (exists r, In (LFs (Rmtree "atp_data") r) t) ->
         In (LExists extracted_dir true) t
         /\ (In (LExists "atp_data" false) t \/ In (LListDir "atp_data" (Ok [])) t)
         /\ In (LFs (ExtractAll zipped_data_path temp_dir) (Ok tt)) t).
Proof.
  repeat segment_told.
  all: intros [res H]; locate H.
  all: try (injection H as <-).
  all: match goal with Hok : true = true -> _ |- _ => specialize (Hok eq_refl) end.
  all: split; [in_trace |]; split; [first [left; in_trace | right; in_trace] | in_trace].
Qed.

Lemma cache_holds_what_was_fetched :
  every_run ensure_primary
    (fun o t =>
       (forall path content r,
           In (LFs (WriteFile path content) r) t ->
           path = zipped_data_path /\ In (LHttpGet DATA_URL (Ok content)) t)
       /\ (forall url r,
             In (LHttpGet url r) t ->
             url = DATA_URL /\ In (LExists zipped_data_path false) t)).
Proof.
  repeat segment_step.
  all: split; [intros path content res H | intros url res H]; locate H.
  all: try (injection H as <- <- <-); try (injection H as <- <-).
  all: split; [reflexivity | show_in].
Qed.


Lemma secondary_runs :
  every_run ensure_secondary
    (fun o t =>
       o = Normal tt
       /\ (In (LExists kaggle_file true) t -> t = [LExists kaggle_file true])
       /\ ((exists r, In (LFs (RunKaggle kaggle_dataset kaggle_dir) r) t) ->
           In (LExists kaggle_zip_path false) t)
       /\ all_told t
       /\ shown Error t = []).
Proof.
  unfold ensure_secondary. repeat every_step.
  all: try (eapply every_run_mono; [| apply try_extract_all_told];
            intros o t (b & -> & Hextract & Htold & _); script_cbn;
            destruct b; repeat every_step).
  all: split; [reflexivity |].
  all: split; [intros H; locate H; try reflexivity |].
  all: split; [intros [res H]; locate H; in_trace |].
  all: split; [intros err H; split_raise H; find_told |].
  all: unfold shown; cbn [collect app]; rewrite ?collect_app.
  all: try rewrite (collect_nil_of_forallb is_extracting _ t)
         by (first [by intros [| | | [] | | | | [] | | | | |] | done]).
  all: reflexivity.
Qed.

Section Acquisition.
Context {S : Type} (env : forall X : Type, event X -> S -> X * S).

(** X2. Primary acquisition lets one exception escape and no other: the
    one [os.listdir] raises on line 53, before anything else was done.
    Every other failure ends in a message, and in [st.stop()] or a normal
    end. *)
Theorem primary_raises_only_from_listdir s e :
  result_of env ensure_primary s = Raised e ->
  trace_of env ensure_primary s = [LExists "atp_data" true; LListDir "atp_data" (Raise e)].
Proof. exact (every_run_sound _ _ only_listdir_escapes S env s e). Qed.

(** X3. A cached archive that cannot be opened is kept: the run shows
    "Download failed" with the reason and stops, without fetching the
    archive again and without writing or removing anything; the next run
    finds the same file. *)
Theorem corrupt_cached_archive_is_kept s e :
  In (LExists zipped_data_path true) (trace_of env ensure_primary s) ->
  In (LFs (ZipOpen zipped_data_path) (Raise e)) (trace_of env ensure_primary s) ->
  result_of env ensure_primary s = Stopped
  /\ In (LSt Error ("Download failed: " ++ e)) (trace_of env ensure_primary s)
  /\ fetches (trace_of env ensure_primary s) = 0
  /\ writes (trace_of env ensure_primary s) = 0.
Proof. exact (every_run_sound _ _ corrupt_cache_stops S env s e). Qed.

(** X4. The old [atp_data] is removed only when its replacement is at hand:
    in a run that entered the download because line 53 found [atp_data]
    absent or empty, after an extraction that succeeded, and after the
    extracted folder was found. *)
Theorem old_directory_is_removed_only_with_a_replacement s :
  (exists r, In (LFs (Rmtree "atp_data") r) (trace_of env ensure_primary s)) ->
  In (LExists extracted_dir true) (trace_of env ensure_primary s)
  /\ (In (LExists "atp_data" false) (trace_of env ensure_primary s)
      \/ In (LListDir "atp_data" (Ok [])) (trace_of env ensure_primary s))
  /\ In (LFs (ExtractAll zipped_data_path temp_dir) (Ok tt)) (trace_of env ensure_primary s).
Proof. exact (every_run_sound _ _ old_directory_removed_with_replacement S env s). Qed.

(** X5. What is written to the cache file is what was fetched: the only
    file written is the cached archive, with the content the fetch of the
    archive URL returned; and that URL is the only one fetched, and only
    when the cache file was found absent. *)
Theorem cache_is_written_from_the_fetch s :
  (forall path content r,
      In (LFs (WriteFile path content) r) (trace_of env ensure_primary s) ->
      path = zipped_data_path
      /\ In (LHttpGet DATA_URL (Ok content)) (trace_of env ensure_primary s))
  /\ (forall url r,
        In (LHttpGet url r) (trace_of env ensure_primary s) ->
        url = DATA_URL /\ In (LExists zipped_data_path false) (trace_of env ensure_primary s)).
Proof. exact (every_run_sound _ _ cache_holds_what_was_fetched S env s). Qed.

(** X6. No failure of primary acquisition goes unreported: whenever the
    fetch or a file-system call raised, some message shown to the user ends
    with the text of that exception. *)
Theorem primary_failures_are_reported s e :
  raised_in e (trace_of env ensure_primary s) -> told e (trace_of env ensure_primary s).
Proof. exact (every_run_sound _ _ primary_errors_are_told S env s e). Qed.

(** X7. The secondary source never ends the run and never shows an error:
    it ends normally whatever fails, every exception is reported in a
    warning; when the CSV file exists nothing else is asked or done; and
    the Kaggle client is run only after the archive was found absent. *)
Theorem secondary_source_is_optional s :
  result_of env ensure_secondary s = Normal tt
  /\ (In (LExists kaggle_file true) (trace_of env ensure_secondary s) ->
      trace_of env ensure_secondary s = [LExists kaggle_file true])
  /\ ((exists r, In (LFs (RunKaggle kaggle_dataset kaggle_dir) r)
                   (trace_of env ensure_secondary s)) ->
      In (LExists kaggle_zip_path false) (trace_of env ensure_secondary s))
  /\ all_told (trace_of env ensure_secondary s)
  /\ shown Error (trace_of env ensure_secondary s) = [].
Proof. exact (every_run_sound _ _ secondary_runs S env s). Qed.

End Acquisition.

Ltac in_run := vm_compute; repeat first [left; reflexivity | right].

Lemma try_extract_all_any_budget_witness :
  result_of (sim extraction_broken) (try_extract_all "a.zip" "out" 2) blank = Normal false
  /\ failed_extracts (trace_of (sim extraction_broken) (try_extract_all "a.zip" "out" 2) blank)
     = 2.
Proof.
  destruct (try_extract_all_any_budget (sim extraction_broken) "a.zip" "out" 2 blank)
    as (b & Hresult & _ & _ & _ & Hfalse & _).
  assert (Hb : b = false) by (vm_compute in Hresult; congruence).
  split; [reflexivity | exact (Hfalse Hb)].
Defined.

Lemma primary_raises_only_from_listdir_witness :
  result_of (sim healthy) ensure_primary atp_data_is_a_file
  = Raised "[Errno 20] Not a directory: 'atp_data'"
  /\ trace_of (sim healthy) ensure_primary atp_data_is_a_file
     = [LExists "atp_data" true;
        LListDir "atp_data" (Raise "[Errno 20] Not a directory: 'atp_data'")].
Proof.
  assert (H : result_of (sim healthy) ensure_primary atp_data_is_a_file
              = Raised "[Errno 20] Not a directory: 'atp_data'") by reflexivity.
  split; [exact H |].
  exact (primary_raises_only_from_listdir (sim healthy) atp_data_is_a_file _ H).
Defined.

Lemma corrupt_cached_archive_is_kept_witness :
  In (LExists zipped_data_path true) (trace_of (sim cache_corrupt) ensure_primary zip_only)
  /\ In (LFs (ZipOpen zipped_data_path) (Raise "File is not a zip file"))
        (trace_of (sim cache_corrupt) ensure_primary zip_only)
  /\ result_of (sim cache_corrupt) ensure_primary zip_only = Stopped
  /\ fetches (trace_of (sim cache_corrupt) ensure_primary zip_only) = 0.
Proof.
  assert (Hcached : In (LExists zipped_data_path true)
                       (trace_of (sim cache_corrupt) ensure_primary zip_only)) by in_run.
  assert (Hopen : In (LFs (ZipOpen zipped_data_path) (Raise "File is not a zip file"))
                     (trace_of (sim cache_corrupt) ensure_primary zip_only)) by in_run.
  destruct (corrupt_cached_archive_is_kept (sim cache_corrupt) zip_only _ Hcached Hopen)
    as (Hstop & _ & Hfetch & _).
  auto.
Defined.

Lemma old_directory_is_removed_only_with_a_replacement_witness :
  In (LFs (Rmtree "atp_data") (Ok tt)) (trace_of (sim healthy) ensure_primary (primed []))
  /\ In (LExists extracted_dir true) (trace_of (sim healthy) ensure_primary (primed [])).
Proof.
  assert (H : In (LFs (Rmtree "atp_data") (Ok tt))
                 (trace_of (sim healthy) ensure_primary (primed []))) by in_run.
  split; [exact H |].
  refine (proj1 (old_directory_is_removed_only_with_a_replacement (sim healthy) (primed [])
                   _)).
  exists (Ok tt). exact H.
Defined.

Lemma cache_is_written_from_the_fetch_witness :
  In (LFs (WriteFile zipped_data_path "PK") (Ok tt)) (trace_of (sim healthy) ensure_primary blank)
  /\ In (LHttpGet DATA_URL (Ok "PK")) (trace_of (sim healthy) ensure_primary blank)
  /\ In (LExists zipped_data_path false) (trace_of (sim healthy) ensure_primary blank).
Proof.
  assert (H : In (LFs (WriteFile zipped_data_path "PK") (Ok tt))
                 (trace_of (sim healthy) ensure_primary blank)) by in_run.
  destruct (cache_is_written_from_the_fetch (sim healthy) blank) as [Hwrite Hfetch].
  destruct (Hwrite _ _ _ H) as [_ Hget].
  split; [exact H |]. split; [exact Hget |].
  exact (proj2 (Hfetch _ _ Hget)).
Defined.

Lemma primary_failures_are_reported_witness :
  raised_in "[Errno 13] Permission denied" (trace_of (sim rename_broken) ensure_primary blank)
  /\ told "[Errno 13] Permission denied" (trace_of (sim rename_broken) ensure_primary blank).
Proof.
  assert (H : raised_in "[Errno 13] Permission denied"
                (trace_of (sim rename_broken) ensure_primary blank)).
  { left. exists (Rename extracted_dir "atp_data"). in_run. }
  split; [exact H |].
  exact (primary_failures_are_reported (sim rename_broken) blank _ H).
Defined.

Lemma secondary_source_is_optional_witness :
  In (LFs (RunKaggle kaggle_dataset kaggle_dir) (Raise (no_such "kaggle")))
     (trace_of (sim healthy) ensure_secondary blank)
  /\ In (LExists kaggle_zip_path false) (trace_of (sim healthy) ensure_secondary blank)
  /\ told (no_such "kaggle") (trace_of (sim healthy) ensure_secondary blank).
Proof.
  assert (H : In (LFs (RunKaggle kaggle_dataset kaggle_dir) (Raise (no_such "kaggle")))
                 (trace_of (sim healthy) ensure_secondary blank)) by in_run.
  destruct (secondary_source_is_optional (sim healthy) blank)
    as (_ & _ & Hzip & Htold & _).
  split; [exact H |]. split; [apply Hzip; eexists; exact H |].
  apply Htold. left. eexists. exact H.
Defined.

(** ** More on the merge *)

Lemma filter_sublist {A : Type} (f : A -> bool) (l : list A) : sublist (List.filter f l) l.
Proof.
  induction l as [| x l IH]; cbn; [constructor |].
  destruct (f x); by constructor.
Qed.

Lemma filter_idem {A : Type} (f : A -> bool) (l : list A) :
  List.filter f (List.filter f l) = List.filter f l.
Proof.
  induction l as [| x l IH]; cbn; [done |].
  destruct (f x) eqn:Hx; cbn; rewrite ?Hx, IH; done.
Qed.

Lemma drop_null_rows_present df :
  (forall c, In c match_columns -> c ∈ columns df) ->
  drop_null_rows df = Ok (Table (columns df) (List.filter null_free_b (rows df))).
Proof.
  intros Hcols.
  destruct (drop_null_rows df) as [df' | e] eqn:Hdrop.
  - apply drop_null_rows_ok in Hdrop as (Hc & _ & Hr). destruct df' as [c r]. cbn in *.
    by subst.
  - apply drop_null_rows_raises in Hdrop as (c & Hc & Hmissing & _).
    destruct Hmissing. auto.
Qed.

(** X10. The null filter only removes rows and is idempotent: its result
    keeps the columns, is a sub-list of the rows it was given (order and
    repetitions kept), and filtering that result again changes nothing. *)
Theorem null_filter_is_idempotent df df' :
  drop_null_rows df = Ok df' ->
  columns df' = columns df
  /\ sublist (rows df') (rows df)
  /\ drop_null_rows df' = Ok df'.
Proof.
  intros (Hcols & Hpresent & Hrows)%drop_null_rows_ok.
  split; [exact Hcols |]. split; [rewrite Hrows; apply filter_sublist |].
  rewrite drop_null_rows_present by (rewrite Hcols; exact Hpresent).
  rewrite Hrows, filter_idem, <- Hrows. by destruct df'.
Qed.

Lemma null_filter_is_idempotent_witness :
  drop_null_rows
    (Table match_columns
       [ {[ "winner_name" := "Rafael Nadal"; "surface" := "Clay"; "tourney_level" := "G" ]};
         match_row "Rafael Nadal" "Roger Federer" "Clay" "G" ])
  = Ok (Table match_columns [match_row "Rafael Nadal" "Roger Federer" "Clay" "G"])
  /\ drop_null_rows (Table match_columns [match_row "Rafael Nadal" "Roger Federer" "Clay" "G"])
     = Ok (Table match_columns [match_row "Rafael Nadal" "Roger Federer" "Clay" "G"]).
Proof.
  assert (H : drop_null_rows
                (Table match_columns
                   [ {[ "winner_name" := "Rafael Nadal"; "surface" := "Clay";
                        "tourney_level" := "G" ]};
                     match_row "Rafael Nadal" "Roger Federer" "Clay" "G" ])
              = Ok (Table match_columns [match_row "Rafael Nadal" "Roger Federer" "Clay" "G"]))
    by reflexivity.
  split; [exact H |].
  exact (proj2 (proj2 (null_filter_is_idempotent _ _ H))).
Defined.

Lemma length_zero_nil {A : Type} (l : list A) : length l = 0 -> l = [].
Proof. by destruct l. Qed.

(** What the merge hands over: the rows of the tables in turn, filtered. *)
Lemma merged_normal dfs kaggle_df df :
  merged dfs kaggle_df = Normal df ->
  rows df = List.filter null_free_b ((dfs ≫= rows) ++ rows kaggle_df)%list.
Proof.
  unfold merged.
  assert (Htables : (if (0 <? n_rows kaggle_df)%nat then (dfs ++ [kaggle_df])%list else dfs)
                    ≫= rows
                    = ((dfs ≫= rows) ++ rows kaggle_df)%list).
  { destruct (0 <? n_rows kaggle_df)%nat eqn:Hrows.
    - rewrite bind_app. cbn. by rewrite app_nil_r.
    - apply Nat.ltb_ge in Hrows. unfold n_rows in Hrows.
      rewrite (length_zero_nil (rows kaggle_df)) by lia. by rewrite app_nil_r. }
  destruct (if (0 <? n_rows kaggle_df)%nat then _ else _) as [| d ds]; [discriminate |].
  unfold mbind at 1, result_bind. cbn [pd_concat].
  destruct (drop_null_rows _) as [df' |] eqn:Hdrop; [| discriminate].
  intros [= ->]. apply drop_null_rows_ok in Hdrop as (_ & _ & ->). cbn [rows].
  by rewrite Htables.
Qed.

(** Lines 126-138 show the success line for the rows of all tables, before
    the null filter, whenever there is a table. *)
Lemma assemble_success dfs kaggle_df :
  every_run (assemble dfs kaggle_df)
    (fun o t =>
       forallb is_verdict t = true
       /\ shown Success t
          = match (if (0 <? n_rows kaggle_df)%nat then (dfs ++ [kaggle_df])%list else dfs) with
            | [] => []
            | tables => [success_line (length (tables ≫= rows))]
            end).
Proof.
  unfold assemble.
  destruct (if (0 <? n_rows kaggle_df)%nat then (dfs ++ [kaggle_df])%list else dfs)
    as [| d ds]; cbn [falsy]; repeat every_step; [done |].
  cbn [pd_concat lift mbind result_bind]. repeat every_step.
  destruct (drop_null_rows _); cbn; done.
Qed.

Lemma load_and_merge_success :
  every_run load_and_merge
    (fun o t =>
       match secondary_read t with
       | Some (Raise e) => shown Success t = []
       | _ =>
           shown Success t
           = match loaded_tables t with
             | [] => []
             | tables => [success_line (length (tables ≫= rows))]
             end
       end).
Proof.
  unfold load_and_merge. repeat every_step; try reflexivity.
  all: eapply every_run_mono; [| apply read_all_spec].
  all: intros o tr (-> & _ & _ & Hread).
  all: eapply every_run_mono; [| apply assemble_success].
  all: intros o ta (Hverdict & Hsuccess).
  all: unfold loaded_tables.
  all: cbn [secondary_read secondary_table primary_part app].
  all: assert (Hpa : parsed ta = [])
         by (apply (collect_nil_of_forallb is_verdict); [by intros [] | done]).
  all: assert (Hsr : shown Success tr = [])
         by (apply (collect_nil_of_forallb is_read); [by intros [| | | | | | | [] | | | | |] | done]).
  all: unfold parsed, shown in *; cbn [collect].
  all: rewrite !collect_app, Hpa, Hsr, ?app_nil_r, ?app_nil_l.
  all: exact Hsuccess.
Qed.

Section Merging.
Context {S : Type} (env : forall X : Type, event X -> S -> X * S).

(** X8. The data set is the concatenation of the loaded tables, filtered:
    whenever the load hands over a data frame, its rows are the rows of the
    per-year tables in the order the files were read, which is the sorted
    order of the glob, followed by the rows of the secondary table, less
    the rows with a null in one of the four columns; nothing is reordered
    and no repetition is removed. *)
Theorem dataset_is_the_concatenation s df :
  result_of env load_and_merge s = Normal df ->
  reads (primary_part (trace_of env load_and_merge s))
  = sorted (globbed (trace_of env load_and_merge s))
  /\ rows df
     = List.filter null_free_b
         ((parsed (primary_part (trace_of env load_and_merge s)) ≫= rows)
          ++ rows (secondary_table (trace_of env load_and_merge s)))%list.
Proof.
  intros Hnormal.
  pose proof (every_run_sound _ _ load_and_merge_runs S env s) as Hrun. cbn beta in Hrun.
  rewrite Hnormal in Hrun.
  destruct (secondary_read (trace_of env load_and_merge s)) as [[k | e] |];
    try discriminate Hrun.
  all: destruct Hrun as (Hreads & _ & Hmerged & _); symmetry in Hmerged.
  all: split; [exact Hreads | by apply merged_normal].
Qed.

(** X9. The success line counts rows before the null filter.  In a run
    that ends normally the one success message gives the number of rows of
    all loaded tables together, which the data set handed over cannot
    exceed and falls short of by the rows dropped for a null. *)
Theorem success_line_counts_unfiltered_rows s df :
  result_of env load_and_merge s = Normal df ->
  shown Success (trace_of env load_and_merge s)
  = [success_line
       (length ((parsed (primary_part (trace_of env load_and_merge s)) ≫= rows)
                ++ rows (secondary_table (trace_of env load_and_merge s)))%list)]
  /\ length (rows df)
     <= length ((parsed (primary_part (trace_of env load_and_merge s)) ≫= rows)
                ++ rows (secondary_table (trace_of env load_and_merge s)))%list.
Proof.
  intros Hnormal.
  pose proof (every_run_sound _ _ load_and_merge_runs S env s) as Hrun.
  pose proof (every_run_sound _ _ load_and_merge_success S env s) as Hsuccess.
  cbn beta in Hrun, Hsuccess. rewrite Hnormal in Hrun.
  destruct (secondary_read (trace_of env load_and_merge s)) as [[k | e] |] eqn:Hread;
    try discriminate Hrun.
  all: destruct Hrun as (_ & _ & Hmerged & _); symmetry in Hmerged.
  all: pose proof (merged_normal _ _ _ Hmerged) as Hrows.
  all: split; [| rewrite Hrows; apply sublist_length, filter_sublist].
  all: rewrite Hsuccess; unfold loaded_tables.
  all: unfold merged in Hmerged.
  all: destruct (0 <? n_rows (secondary_table (trace_of env load_and_merge s)))%nat eqn:Hk.
  all: destruct (_ : list table) as [| d ds] eqn:Htables; try discriminate Hmerged.
  all: rewrite <- Htables; try rewrite bind_app; cbn [mbind list_bind]; rewrite ?app_nil_r;
    try reflexivity.
  all: apply Nat.ltb_ge in Hk; unfold n_rows in Hk.
  all: rewrite (length_zero_nil (rows (secondary_table (trace_of env load_and_merge s))))
         by lia.
  all: by rewrite app_nil_r.
Qed.

End Merging.

(** An instance of X8: two per-year files read in sorted order. *)
Lemma dataset_is_the_concatenation_witness :
  exists df,
    result_of (sim healthy) load_and_merge
      (primed ["atp_matches_2020.csv"; "atp_matches_2019.csv"]) = Normal df
    /\ reads (primary_part (trace_of (sim healthy) load_and_merge
                (primed ["atp_matches_2020.csv"; "atp_matches_2019.csv"])))
       = ["atp_data/atp_matches_2019.csv"; "atp_data/atp_matches_2020.csv"]
    /\ rows df
       = List.filter null_free_b
           ((parsed (primary_part (trace_of (sim healthy) load_and_merge
                       (primed ["atp_matches_2020.csv"; "atp_matches_2019.csv"]))) ≫= rows)
            ++ rows (secondary_table (trace_of (sim healthy) load_and_merge
                       (primed ["atp_matches_2020.csv"; "atp_matches_2019.csv"]))))%list.
Proof.
  eexists. split; [reflexivity |]. split; [reflexivity |].
  apply (proj2 (dataset_is_the_concatenation (sim healthy)
                  (primed ["atp_matches_2020.csv"; "atp_matches_2019.csv"]) _ eq_refl)).
Defined.

(** An instance of X9: five rows counted, one handed over. *)
Lemma success_line_counts_unfiltered_rows_witness :
  exists df,
    result_of (sim with_nulls) load_and_merge (primed ["atp_matches_2019.csv"]) = Normal df
    /\ length (rows df) = 1
    /\ shown Success (trace_of (sim with_nulls) load_and_merge (primed ["atp_matches_2019.csv"]))
       = [success_line
            (length ((parsed (primary_part (trace_of (sim with_nulls) load_and_merge
                                (primed ["atp_matches_2019.csv"]))) ≫= rows)
                     ++ rows (secondary_table (trace_of (sim with_nulls) load_and_merge
                                (primed ["atp_matches_2019.csv"]))))%list)].
Proof.
  eexists. split; [reflexivity |]. split; [reflexivity |].
  apply (proj1 (success_line_counts_unfiltered_rows (sim with_nulls)
                  (primed ["atp_matches_2019.csv"]) _ eq_refl)).
Defined.

(** ** The selectors *)

#[local] Instance string_leb_total : Total (fun a b : string => Is_true (String.leb a b)).
Proof.
  intros a b. destruct (String.leb_total a b) as [H | H]; rewrite H; [left | right]; exact I.
Qed.

Lemma NoDup_unique_from seen l : NoDup (unique_from seen l).
Proof.
  revert seen. induction l as [| x l IH]; intros seen; cbn; [constructor |].
  case_bool_decide; [apply IH |].
  constructor; [| apply IH].
  rewrite elem_of_unique_from, elem_of_cons. tauto.
Qed.

Lemma elem_of_dropna_cells df c p :
  p ∈ dropna (cells df c) <-> exists r, In r (rows df) /\ r !! c = Some p.
Proof.
  unfold dropna, cells. rewrite list_elem_of_omap. split.
  - intros (o & (r & -> & Hr)%list_elem_of_fmap & Hid). cbn in Hid.
    exists r. by rewrite <- list_elem_of_In.
  - intros (r & Hr & Hp). exists (Some p). split; [| done].
    apply list_elem_of_fmap. exists r. by rewrite list_elem_of_In.
Qed.

Lemma players_of_sorted df :
  Sorted (fun a b : string => Is_true (String.leb a b)) (players_of df).
Proof. unfold players_of, sorted. apply (Sorted_merge_sort _). Qed.

Lemma players_of_NoDup df : NoDup (players_of df).
Proof.
  unfold players_of, sorted. rewrite merge_sort_Permutation. apply NoDup_unique_from.
Qed.

Lemma elem_of_players_of df p :
  p ∈ players_of df
  <-> exists r, In r (rows df) /\ (r !! "winner_name" = Some p \/ r !! "loser_name" = Some p).
Proof.
  unfold players_of, sorted, unique.
  rewrite merge_sort_Permutation, elem_of_unique_from, elem_of_app, !elem_of_dropna_cells.
  split.
  - intros [[(r & Hr & Hp) | (r & Hr & Hp)] _]; exists r; auto.
  - intros (r & Hr & [Hp | Hp]); (split; [| apply not_elem_of_nil]); [left | right]; eauto.
Qed.

(** The default position is a position of the list. *)
Lemma index_of_lt p l : p ∈ l -> index_of p l < length l.
Proof.
  induction l as [| y l IH]; cbn; [by intros ?%elem_of_nil |].
  case_bool_decide; [lia |]. intros [? | Hl]%elem_of_cons; [done |].
  specialize (IH Hl). lia.
Qed.

Lemma index_of_lookup p l j : NoDup l -> l !! j = Some p -> index_of p l = j.
Proof.
  intros Hnd. revert j. induction Hnd as [| y l Hy Hnd IH]; intros j; [done |].
  cbn [index_of]. destruct j as [| j]; cbn.
  - intros [= ->]. by rewrite bool_decide_eq_true_2.
  - intros Hj. rewrite bool_decide_eq_false_2.
    + f_equal. by apply IH.
    + intros ->. apply Hy. by eapply list_elem_of_lookup_2.
Qed.

Lemma removelast_lookup {A : Type} (l : list A) (x : A) :
  x ∈ removelast l <-> exists j, l !! j = Some x /\ j + 1 < length l.
Proof.
  induction l as [| y l IH]; [cbn; rewrite elem_of_nil; split; [done | intros (? & ? & ?); done] |].
  destruct l as [| z l].
  - cbn. rewrite elem_of_nil. split; [done |]. intros (j & _ & Hj). lia.
  - change (removelast (y :: z :: l)) with (y :: removelast (z :: l)).
    rewrite elem_of_cons, IH. split.
    + intros [-> | (j & Hj & Hlt)].
      * exists 0. cbn. split; [done | lia].
      * exists (S j). cbn in *. split; [done | lia].
    + intros ([| j] & Hj & Hlt); cbn in *.
      * left. congruence.
      * right. exists j. split; [done | lia].
Qed.

Lemma default_index_spec players player1 :
  NoDup players ->
  (players <> [] -> default_index players player1 < length players)
  /\ (forall p j,
        player1 = Some p -> players !! j = Some p ->
        default_index players player1 = if bool_decide (j + 1 < length players) then j + 1 else 0)
  /\ (forall p,
        player1 = Some p -> p ∈ players -> 2 <= length players ->
        players !! default_index players player1 <> Some p)
  /\ ((forall p, player1 = Some p -> p ∉ players) -> default_index players player1 = 0).
Proof.
  intros Hnd.
  assert (Hat : forall p j,
             players !! j = Some p ->
             default_index players (Some p)
             = if bool_decide (j + 1 < length players) then j + 1 else 0).
  { intros p j Hj. unfold default_index.
    case_bool_decide as Hin.
    - apply removelast_lookup in Hin as (j' & Hj' & Hlt).
      assert (j' = j) as -> by (eapply NoDup_lookup; eauto).
      rewrite bool_decide_eq_true_2 by done.
      rewrite (index_of_lookup p players j) by done. lia.
    - rewrite bool_decide_eq_false_2; [done |].
      intros Hlt. apply Hin, removelast_lookup. eauto. }
  split; [| split; [| split]].
  - intros Hne. unfold default_index. destruct player1 as [p |]; [| destruct players; [done | cbn; lia]].
    case_bool_decide as Hin; [| destruct players; [done | cbn; lia]].
    apply removelast_lookup in Hin as (j & Hj & Hlt).
    rewrite (index_of_lookup p players j) by done. lia.
  - intros p j -> Hj. by apply Hat.
  - intros p -> (j & Hj)%list_elem_of_lookup_1 Hlen. rewrite (Hat p j Hj).
    case_bool_decide as Hlt.
    + intros Hnext. assert (j + 1 = j) by (eapply NoDup_lookup; eauto). lia.
    + intros H0. assert (0 = j) by (eapply NoDup_lookup; eauto). lia.
  - intros Hout. unfold default_index. destruct player1 as [p |]; [| done].
    rewrite bool_decide_eq_false_2; [done |].
    intros (j & Hj & _)%removelast_lookup. apply (Hout p eq_refl).
    by eapply list_elem_of_lookup_2.
Qed.

Ltac lift_step :=
  match goal with
  | |- context [lift ?r] => destruct r eqn:?; script_cbn
  | |- context [match ?r with Ok _ => _ | Raise _ => _ end] => destruct r eqn:?; script_cbn
  end.

Lemma predict_alphabet df player1 player2 surface tourney_level :
  every_run (predict df player1 player2 surface tourney_level)
    (fun o t => forallb is_predicting t = true).
Proof.
  unfold predict, get_dummies. repeat first [every_step | lift_step].
  all: reflexivity.
Qed.

Ltac selectors_step :=
  lazymatch goal with
  | |- every_run (predict _ _ _ _ _) _ =>
      let Hp := fresh "Hpredict" in
      eapply every_run_mono; [| apply predict_alphabet];
      intros ? ? Hp; cbn beta in Hp; script_cbn
  | |- forall x : option string, _ => intro
  | _ => first [every_step | lift_step]
  end.

Lemma selectors_run df :
  every_run (select_and_predict df)
    (fun o t =>
       forall label opts i c,
         In (LSelectBox label opts i c) t ->
         (label = "Select Player 1" /\ opts = players_of df /\ i = 0)
         \/ (label = "Select Player 2" /\ opts = players_of df
             /\ exists player1,
                 chosen "Select Player 1" t = [player1]
                 /\ i = default_index (players_of df) player1)
         \/ (label = "Surface" /\ opts = unique (dropna (cells df "surface")) /\ i = 0)
         \/ (label = "Tournament Level"
             /\ opts = unique (dropna (cells df "tourney_level")) /\ i = 0)).
Proof.
  unfold select_and_predict. repeat selectors_step.
  all: repeat match goal with
         | H : getitem _ _ = Ok _ |- _ => apply getitem_ok in H as [_ ->]
         end.
  all: fold (cells df "winner_name") (cells df "loser_name") (cells df "surface")
         (cells df "tourney_level"); fold (players_of df).
  all: intros label opts i c H; cbn [In] in H.
  all: repeat match type of H with
         | _ \/ _ => destruct H as [H | H]
         | False => destruct H
         | LButton _ _ = _ => discriminate H
         | LSelectBox _ _ _ _ = _ => injection H as <- <- <- <-
         | In ?x ?t =>
             match goal with
             | F : forallb ?f t = true |- _ =>
                 apply (proj1 (forallb_forall f t) F) in H; cbv in H; discriminate H
             end
         end.
  all: try (left; done).
  all: try (right; right; left; done).
  all: try (right; right; right; done).
  all: right; left; split; [reflexivity |]; split; [reflexivity |].
  all: eexists; split; [| reflexivity].
  all: unfold chosen; cbn [collect]; cbn.
  all: try (rewrite (collect_nil_of_forallb is_predicting); [| by intros [] | done]).
  all: reflexivity.
Qed.

Lemma unique_from_sublist seen l : sublist (unique_from seen l) l.
Proof.
  revert seen. induction l as [| x l IH]; intros seen; cbn; [constructor |].
  case_bool_decide; constructor; apply IH.
Qed.

Lemma elem_of_unique_dropna df c v :
  v ∈ unique (dropna (cells df c)) <-> exists r, In r (rows df) /\ r !! c = Some v.
Proof.
  unfold unique. rewrite elem_of_unique_from, elem_of_dropna_cells.
  split; [tauto |]. intros H. split; [done | apply not_elem_of_nil].
Qed.

Section Selectors.
Context {S : Type} (env : forall X : Type, event X -> S -> X * S).

(** X11. Both player selectors offer exactly the names of the data set:
    whatever the user answers, the options of "Select Player 1" and of
    "Select Player 2" are the same list, in ascending order, without
    repetition, and a name is offered exactly when some row has it as winner
    or as loser. *)
Theorem player_selectors_offer_the_names df s label opts i c :
  In (LSelectBox label opts i c) (trace_of env (select_and_predict df) s) ->
  label = "Select Player 1" \/ label = "Select Player 2" ->
  opts = players_of df
  /\ Sorted (fun a b : string => Is_true (String.leb a b)) opts
  /\ NoDup opts
  /\ (forall p,
        p ∈ opts
        <-> exists r, In r (rows df)
                      /\ (r !! "winner_name" = Some p \/ r !! "loser_name" = Some p)).
Proof.
  intros Hin Hlabel.
  assert (Hopts : opts = players_of df).
  { destruct (every_run_sound _ _ (selectors_run df) S env s label opts i c Hin)
      as [(_ & -> & _) | [(_ & -> & _) | [(-> & _) | (-> & _)]]]; try done.
    all: by destruct Hlabel. }
  subst opts. split; [done |]. split; [apply players_of_sorted |].
  split; [apply players_of_NoDup |]. apply elem_of_players_of.
Qed.

(** X12. The default of the second selector is always a position of its
    list, and names another player whenever it can.  With [player1] the
    answer given at the first selector: the index passed on line 143 is
    below the number of options unless there is none; when [player1] is the
    option at position [j] the index is [j + 1], or 0 when [player1] is the
    last option; so with two options or more the default of the second
    selector is never [player1]; and for an answer that is not among the
    options (no option at all) the index is 0. *)
Theorem second_selector_default_is_valid df s opts i c :
  In (LSelectBox "Select Player 2" opts i c) (trace_of env (select_and_predict df) s) ->
  exists player1,
    chosen "Select Player 1" (trace_of env (select_and_predict df) s) = [player1]
    /\ (opts <> [] -> i < length opts)
    /\ (forall p j,
          player1 = Some p -> opts !! j = Some p ->
          i = if bool_decide (j + 1 < length opts) then j + 1 else 0)
    /\ (forall p,
          player1 = Some p -> p ∈ opts -> 2 <= length opts -> opts !! i <> Some p)
    /\ ((forall p, player1 = Some p -> p ∉ opts) -> i = 0).
Proof.
  intros Hin.
  destruct (every_run_sound _ _ (selectors_run df) S env s _ opts i c Hin)
    as [(Hl & _) | [(_ & -> & player1 & Hchosen & ->) | [(Hl & _) | (Hl & _)]]];
    try discriminate Hl.
  exists player1. split; [exact Hchosen |].
  apply default_index_spec, players_of_NoDup.
Qed.

(** X13. The surface and the level selectors offer exactly the values of
    their column: each distinct non-null value once, in the order of the
    column, with the first as default. *)
Theorem context_selectors_offer_the_values df s label column opts i c :
  In (LSelectBox label opts i c) (trace_of env (select_and_predict df) s) ->
  (label = "Surface" /\ column = "surface")
  \/ (label = "Tournament Level" /\ column = "tourney_level") ->
  i = 0
  /\ NoDup opts
  /\ sublist opts (dropna (cells df column))
  /\ (forall v, v ∈ opts <-> exists r, In r (rows df) /\ r !! column = Some v).
Proof.
  intros Hin Hlabel.
  assert (Hopts : opts = unique (dropna (cells df column)) /\ i = 0).
  { destruct (every_run_sound _ _ (selectors_run df) S env s label opts i c Hin)
      as [(-> & _) | [(-> & _) | [(-> & -> & ->) | (-> & -> & ->)]]];
      destruct Hlabel as [[Hl ->] | [Hl ->]]; done. }
  destruct Hopts as [-> ->]. split; [done |].
  split; [apply NoDup_unique_from |]. split; [apply unique_from_sublist |].
  apply elem_of_unique_dropna.
Qed.

End Selectors.

(** An instance of X11: the three players of [rivalry]. *)
Lemma player_selectors_offer_the_names_witness :
  In (LSelectBox "Select Player 1" ["Novak Djokovic"; "Rafael Nadal"; "Roger Federer"] 0
        (Some "Rafael Nadal"))
     (trace_of (sim healthy) (select_and_predict rivalry) blank)
  /\ NoDup ["Novak Djokovic"; "Rafael Nadal"; "Roger Federer"].
Proof.
  assert (Hin : In (LSelectBox "Select Player 1"
                      ["Novak Djokovic"; "Rafael Nadal"; "Roger Federer"] 0
                      (Some "Rafael Nadal"))
                   (trace_of (sim healthy) (select_and_predict rivalry) blank))
    by in_run.
  split; [exact Hin |].
  exact (proj1 (proj2 (proj2 (player_selectors_offer_the_names (sim healthy) rivalry blank
                                _ _ _ _ Hin (or_introl eq_refl))))).
Defined.

(** An instance of X12: after "Rafael Nadal", the second of three, the
    default is the third. *)
Lemma second_selector_default_is_valid_witness :
  In (LSelectBox "Select Player 2" ["Novak Djokovic"; "Rafael Nadal"; "Roger Federer"] 2
        (Some "Roger Federer"))
     (trace_of (sim healthy) (select_and_predict rivalry) blank)
  /\ exists player1,
       chosen "Select Player 1" (trace_of (sim healthy) (select_and_predict rivalry) blank)
       = [player1].
Proof.
  assert (Hin : In (LSelectBox "Select Player 2"
                      ["Novak Djokovic"; "Rafael Nadal"; "Roger Federer"] 2
                      (Some "Roger Federer"))
                   (trace_of (sim healthy) (select_and_predict rivalry) blank))
    by in_run.
  split; [exact Hin |].
  destruct (second_selector_default_is_valid (sim healthy) rivalry blank _ _ _ Hin)
    as (player1 & Hchosen & _).
  exists player1. exact Hchosen.
Defined.

(** An instance of X13: the surfaces of [rivalry], in the order of its rows. *)
Lemma context_selectors_offer_the_values_witness :
  In (LSelectBox "Surface" ["Clay"; "Hard"; "Grass"] 0 (Some "Hard"))
     (trace_of (sim healthy) (select_and_predict rivalry) blank)
  /\ NoDup ["Clay"; "Hard"; "Grass"].
Proof.
  assert (Hin : In (LSelectBox "Surface" ["Clay"; "Hard"; "Grass"] 0 (Some "Hard"))
                   (trace_of (sim healthy) (select_and_predict rivalry) blank))
    by in_run.
  split; [exact Hin |].
  exact (proj1 (proj2 (context_selectors_offer_the_values (sim healthy) rivalry blank
                         _ "surface" _ _ _ Hin (or_introl (conj eq_refl eq_refl))))).
Defined.

(** ** The prediction *)

Lemma encode_query_ok surface tourney_level X_columns e :
  encode_query surface tourney_level X_columns = Raise e -> False.
Proof.
  unfold encode_query. by rewrite bool_decide_eq_true_2 by apply query_labels_NoDup.
Qed.

Lemma encode_query_columns surface tourney_level X_columns row :
  encode_query surface tourney_level X_columns = Ok row -> row.*1 = X_columns.
Proof.
  unfold encode_query. case_bool_decide; [| discriminate]. intros [= <-].
  rewrite <- list_fmap_compose. apply list_fmap_id.
Qed.

Lemma head_to_head_raises df player1 player2 e :
  head_to_head df player1 player2 = Raise e ->
  exists c, In c match_columns /\ (c ∉ columns df) /\ e = "'" ++ c ++ "'".
Proof.
  unfold head_to_head, mbind, result_bind.
  destruct (getitem df "winner_name") eqn:Hw.
  - destruct (getitem df "loser_name") eqn:Hl; [discriminate |].
    intros [= <-]. apply getitem_raise in Hl. exists "loser_name". cbn. tauto.
  - intros [= <-]. apply getitem_raise in Hw. exists "winner_name". cbn. tauto.
Qed.

Ltac predict_step :=
  lazymatch goal with
  | |- every_run (let '(_, _) := get_dummies ?a ?b in _) _ =>
      destruct (get_dummies a b) eqn:?; script_cbn
  | |- every_run (if is_empty ?m then _ else _) _ => destruct (is_empty m) eqn:?
  | _ => first [every_step | lift_step]
  end.

(** What the classifier is fitted on. *)
Lemma predict_fit df player1 player2 surface tourney_level :
  every_run (predict df player1 player2 surface tourney_level)
    (fun o t =>
       forall X_columns X y r,
         In (LXgbFit X_columns X y r) t ->
         exists md,
           head_to_head df player1 player2 = Ok md
           /\ is_empty md = false
           /\ (X_columns, X) = get_dummies (cells md "surface") (cells md "tourney_level")
           /\ y = eq_value (cells md "winner_name") player1).
Proof.
  unfold predict. repeat predict_step.
  all: intros X_columns X y r H; cbn [In] in H.
  all: repeat match type of H with
         | _ \/ _ => destruct H as [H | H]
         | False => destruct H
         | _ = _ => first [discriminate H | injection H as <- <- <- <-]
         end.
  all: repeat match goal with
         | H : getitem _ _ = Ok _ |- _ => apply getitem_ok in H as [_ ->]
         end.
  all: eexists; split; [reflexivity |]; split; [assumption |]; split; [| reflexivity].
  all: symmetry; eassumption.
Qed.

Lemma missing_in_subset df player1 player2 md c e :
  head_to_head df player1 player2 = Ok md ->
  In c match_columns ->
  getitem md c = Raise e ->
  exists c, In c match_columns /\ (c ∉ columns df) /\ e = "'" ++ c ++ "'".
Proof.
  intros [Hcols _]%head_to_head_rows Hc [Hmissing ->]%getitem_raise.
  exists c. by rewrite <- Hcols.
Qed.

Ltac classifier_cases H :=
  destruct H as [(? & ? & ? & H) | [(? & H) | (? & H)]]; cbn [In] in H;
  repeat match type of H with
    | _ \/ _ => destruct H as [H | H]
    | False => destruct H
    | _ = _ => first [discriminate H | injection H as <- <- <- <- | injection H as <- <-]
    end.

(** How a prediction can end. *)
Lemma predict_ends df player1 player2 surface tourney_level :
  every_run (predict df player1 player2 surface tourney_level)
    (fun o t =>
       (forall e, classifier_raised e t -> o = Raised e /\ shown Success t = [])
       /\ (forall e,
             o = Raised e ->
             classifier_raised e t
             \/ exists c, In c match_columns /\ (c ∉ columns df) /\ e = "'" ++ c ++ "'")
       /\ (o = Normal tt ->
           t = [LSt Warning "No head-to-head data between selected players."]
           \/ exists X_columns X y row prediction probs,
               t = [LXgbFit X_columns X y (Ok tt);
                    LXgbPredict row (Ok prediction);
                    LXgbPredictProba row (Ok probs);
                    LSt Success
                      (prediction_line (if prediction : bool then player1 else player2)
                         (if prediction : bool then probs.2 else probs.1))]
               /\ row.*1 = X_columns)
       /\ o <> Stopped).
Proof.
  unfold predict. repeat predict_step.
  all: split; [| split; [| split; [| discriminate]]].
  - intros e Hc. by classifier_cases Hc.
  - discriminate.
  - by left.
  - intros e Hc. by classifier_cases Hc.
  - discriminate.
  - intros _. right. do 6 eexists. split; [reflexivity |].
    by eapply encode_query_columns.
  - intros e' Hc. by classifier_cases Hc.
  - intros e' [= <-]. left. right. right. eexists. show_in.
  - discriminate.
  - intros e' Hc. by classifier_cases Hc.
  - intros e' [= <-]. left. right. left. eexists. show_in.
  - discriminate.
  - intros e' Hc. by classifier_cases Hc.
  - intros e' _. exfalso. by eapply encode_query_ok.
  - discriminate.
  - intros e' Hc. by classifier_cases Hc.
  - intros e' [= <-]. left. left. do 3 eexists. show_in.
  - discriminate.
  - intros e' Hc. by classifier_cases Hc.
  - intros e' [= <-]. right.
    eapply missing_in_subset; [eassumption | | eassumption]; cbn; tauto.
  - discriminate.
  - intros e' Hc. by classifier_cases Hc.
  - intros e' [= <-]. right.
    eapply missing_in_subset; [eassumption | | eassumption]; cbn; tauto.
  - discriminate.
  - intros e' Hc. by classifier_cases Hc.
  - intros e' [= <-]. right.
    eapply missing_in_subset; [eassumption | | eassumption]; cbn; tauto.
  - discriminate.
  - intros e' Hc. by classifier_cases Hc.
  - intros e' [= <-]. right. by eapply head_to_head_raises.
  - discriminate.
Qed.

(** ** The training data *)










Section Training.
Context {S : Type} (env : forall X : Type, event X -> S -> X * S).


End Training.


(** ** The two players, swapped *)

Lemma both_selected_swap player1 player2 r :
  both_selected player1 player2 r = both_selected player2 player1 r.
Proof.
  unfold both_selected.
  f_equal; apply bool_decide_ext; rewrite !elem_of_cons, !elem_of_nil; tauto.
Qed.

Lemma table_eq (a b : table) : columns a = columns b -> rows a = rows b -> a = b.
Proof. destruct a, b. cbn. by intros -> ->. Qed.

Lemma head_to_head_swap df player1 player2 md md' :
  head_to_head df player1 player2 = Ok md ->
  head_to_head df player2 player1 = Ok md' ->
  md' = md.
Proof.
  intros [Hc Hr]%head_to_head_rows [Hc' Hr']%head_to_head_rows.
  apply table_eq; [congruence |]. rewrite Hr, Hr'.
  apply List.filter_ext. intros r. apply both_selected_swap.
Qed.

(** On rows with a winner, and for two different selections, the labels of
    the subset for one order are the negated labels for the other. *)
Lemma labels_flip df player1 player2 md :
  head_to_head df player1 player2 = Ok md ->
  Forall null_free (rows df) ->
  player1 <> player2 ->
  eq_value (cells md "winner_name") player2
  = negb <$> eq_value (cells md "winner_name") player1.
Proof.
  intros [_ Hrows]%head_to_head_rows Hfree Hdiff.
  unfold eq_value, cells. rewrite <- !list_fmap_compose.
  apply list_fmap_ext. intros i row Hrow. cbn.
  apply list_elem_of_lookup_2, list_elem_of_In in Hrow.
  rewrite Hrows in Hrow. apply filter_In in Hrow as [Hdf Hboth].
  rewrite Forall_forall in Hfree. apply list_elem_of_In, Hfree in Hdf.
  destruct (Hdf "winner_name") as [w Hw]; [cbn; tauto |].
  unfold both_selected in Hboth. apply andb_prop in Hboth as [Hwin _].
  apply bool_decide_eq_true in Hwin. rewrite Hw in Hwin |- *.
  apply elem_of_cons in Hwin as [<- | Hwin].
  - rewrite bool_decide_eq_true_2 by done. destruct player2 as [b |]; [| done].
    rewrite bool_decide_eq_false_2; [done |]. congruence.
  - apply list_elem_of_singleton in Hwin as <-.
    rewrite bool_decide_eq_true_2 by done. destruct player1 as [a |]; [| done].
    rewrite bool_decide_eq_false_2; [done |]. congruence.
Qed.

Section Outcomes.
Context {S : Type} (env : forall X : Type, event X -> S -> X * S).

(** X15. Swapping the two players changes the labels only.  A fit for the
    players in one order and a fit for them in the other order, whatever
    the query and whatever else happens in the two runs, get the same
    header and the same matrix; and on rows without nulls, for two
    different players, the labels of one are the negated labels of the
    other. *)
Theorem swapping_the_players_flips_the_labels df player1 player2
    surface tourney_level surface' tourney_level' s s' X_columns X y r X_columns' X' y' r' :
  In (LXgbFit X_columns X y r)
     (trace_of env (predict df player1 player2 surface tourney_level) s) ->
  In (LXgbFit X_columns' X' y' r')
     (trace_of env (predict df player2 player1 surface' tourney_level') s') ->
  X_columns' = X_columns
  /\ X' = X
  /\ (Forall null_free (rows df) -> player1 <> player2 -> y' = negb <$> y).
Proof.
  intros Hin Hin'.
  destruct (every_run_sound _ _ (predict_fit df player1 player2 surface tourney_level)
              S env s X_columns X y r Hin) as (md & Hmd & _ & Hdummies & ->).
  destruct (every_run_sound _ _ (predict_fit df player2 player1 surface' tourney_level')
              S env s' X_columns' X' y' r' Hin') as (md' & Hmd' & _ & Hdummies' & ->).
  rewrite (head_to_head_swap df player1 player2 md md' Hmd Hmd') in Hdummies'.
  rewrite <- Hdummies in Hdummies'. injection Hdummies' as -> ->.
  split; [done |]. split; [done |]. intros Hfree Hdiff.
  rewrite (head_to_head_swap df player1 player2 md md' Hmd Hmd').
  by eapply labels_flip.
Qed.

(** X16. An exception of the classifier is never caught, and on a data
    frame with the four columns nothing else can raise.  When [fit],
    [predict] or [predict_proba] raises, the run ends with that exception
    and no winner is shown; and a run that ends with an exception got it
    from the classifier, or it is the [KeyError] of one of the four columns
    that the data frame lacks.  The prediction never ends in [st.stop()]. *)
Theorem classifier_errors_end_the_run df player1 player2 surface tourney_level s e :
  (classifier_raised e (trace_of env (predict df player1 player2 surface tourney_level) s) ->
   result_of env (predict df player1 player2 surface tourney_level) s = Raised e
   /\ shown Success (trace_of env (predict df player1 player2 surface tourney_level) s) = [])
  /\ (result_of env (predict df player1 player2 surface tourney_level) s = Raised e ->
      classifier_raised e (trace_of env (predict df player1 player2 surface tourney_level) s)
      \/ exists c, In c match_columns /\ (c ∉ columns df) /\ e = "'" ++ c ++ "'")
  /\ result_of env (predict df player1 player2 surface tourney_level) s <> Stopped.
Proof.
  destruct (every_run_sound _ _ (predict_ends df player1 player2 surface tourney_level)
              S env s) as (Hraise & Hraised & _ & Hstop).
  split; [apply Hraise |]. split; [apply Hraised | exact Hstop].
Qed.


End Outcomes.

(** An instance of X15: Nadal against Federer, and Federer against Nadal. *)
Lemma swapping_the_players_flips_the_labels_witness :
  In (LXgbFit ["surface_Clay"; "surface_Grass"; "tourney_level_G"]
        [[true; false; true]; [false; true; true]] [true; false] (Ok tt))
     (trace_of (sim healthy)
        (predict rivalry (Some "Rafael Nadal") (Some "Roger Federer") (Some "Hard") (Some "G"))
        blank)
  /\ In (LXgbFit ["surface_Clay"; "surface_Grass"; "tourney_level_G"]
           [[true; false; true]; [false; true; true]] [false; true] (Ok tt))
        (trace_of (sim healthy)
           (predict rivalry (Some "Roger Federer") (Some "Rafael Nadal") (Some "Clay") (Some "M"))
           blank)
  /\ [false; true] = negb <$> [true; false].
Proof.
  assert (Hin : In (LXgbFit ["surface_Clay"; "surface_Grass"; "tourney_level_G"]
                      [[true; false; true]; [false; true; true]] [true; false] (Ok tt))
                   (trace_of (sim healthy)
                      (predict rivalry (Some "Rafael Nadal") (Some "Roger Federer")
                         (Some "Hard") (Some "G"))
                      blank))
    by in_run.
  assert (Hin' : In (LXgbFit ["surface_Clay"; "surface_Grass"; "tourney_level_G"]
                       [[true; false; true]; [false; true; true]] [false; true] (Ok tt))
                    (trace_of (sim healthy)
                       (predict rivalry (Some "Roger Federer") (Some "Rafael Nadal")
                          (Some "Clay") (Some "M"))
                       blank))
    by in_run.
  split; [exact Hin |]. split; [exact Hin' |].
  apply (proj2 (proj2 (swapping_the_players_flips_the_labels (sim healthy) rivalry
                         _ _ _ _ _ _ blank blank _ _ _ _ _ _ _ _ Hin Hin'))).
  - apply Forall_forall. intros row Hrow%list_elem_of_In. apply null_free_b_spec.
    destruct Hrow as [<- | [<- | [<- | []]]]; vm_compute; reflexivity.
  - discriminate.
Defined.

(** An instance of X16: a classifier that refuses the training data. *)
Lemma classifier_errors_end_the_run_witness :
  classifier_raised "Invalid classes inferred from unique values of `y`."
    (trace_of (refusing healthy)
       (predict rivalry (Some "Rafael Nadal") (Some "Roger Federer") (Some "Hard") (Some "G"))
       blank)
  /\ result_of (refusing healthy)
       (predict rivalry (Some "Rafael Nadal") (Some "Roger Federer") (Some "Hard") (Some "G"))
       blank
     = Raised "Invalid classes inferred from unique values of `y`.".
Proof.
  assert (Hc : classifier_raised "Invalid classes inferred from unique values of `y`."
                 (trace_of (refusing healthy)
                    (predict rivalry (Some "Rafael Nadal") (Some "Roger Federer")
                       (Some "Hard") (Some "G"))
                    blank)).
  { left. do 3 eexists. vm_compute. left. reflexivity. }
  split; [exact Hc |].
  exact (proj1 (proj1 (classifier_errors_end_the_run (refusing healthy) rivalry
                         _ _ _ _ blank _) Hc)).
Defined.


(** ** The year test of [tennis_match_predictor-app.py] *)










(** ** The load of [tennis_match_predictor-app.py] *)

Lemma check_all_runs all_files :
  forall valid_files,
    every_run (check_all all_files valid_files)
      (fun o t =>
         o = Normal (valid_files ++ checked t)%list
         /\ forallb is_check t = true
         /\ reads t = all_files).
Proof.
  induction all_files as [| f rest IH]; intros valid_files; cbn [check_all].
  - cbn. by rewrite app_nil_r.
  - repeat every_step.
    all: eapply every_run_mono; [| apply IH].
    all: intros o t (-> & Hcheck & Hreads); cbn [app].
    all: unfold checked, reads in *; cbn [collect forallb is_check andb].
    all: rewrite Hreads, <- ?app_assoc; done.
Qed.

Lemma read_valid_runs valid_files :
  every_run (read_valid valid_files)
    (fun o t =>
       forallb is_full_read t = true
       /\ match o with
          | Normal ts =>
              full_reads t = valid_files /\ full_tables t = ts
              /\ length ts = length valid_files
          | Raised e =>
              full_reads t `prefix_of` valid_files
              /\ exists f, In (LReadCsv f None (Raise e)) t
          | Stopped => False
          end).
Proof.
  induction valid_files as [| f rest IH]; cbn [read_valid].
  - cbn. done.
  - repeat every_step.
    + eapply every_run_mono; [| apply IH]. intros o t [Hfull Hend].
      destruct o as [ts | e |]; script_cbn; rewrite ?app_nil_r.
      all: unfold full_reads, full_tables in *; cbn [collect forallb is_full_read andb].
      all: split; [exact Hfull |].
      * destruct Hend as (-> & -> & Hlen). cbn [length]. by rewrite Hlen.
      * destruct Hend as [Hprefix (g & Hg)]. split; [by apply prefix_cons |].
        exists g. by right.
      * done.
    + split; [done |]. split; [| eexists; by left].
      unfold full_reads. cbn [collect]. apply prefix_cons, prefix_nil.
Qed.

Lemma collect_In {B : Type} (pick : entry -> option B) (t : list entry) x b :
  In x t -> pick x = Some b -> In b (collect pick t).
Proof.
  induction t as [| y t IH]; [done |]. intros [-> | Hin] Hpick; cbn [collect].
  - rewrite Hpick. by left.
  - destruct (pick y); [right |]; by apply IH.
Qed.

Lemma app_load_runs :
  every_run app_load
    (fun o t =>
       match o with
       | Stopped =>
           full_reads t = [] /\ checked t = []
           /\ ((app_all_files (globbed t) = [] /\ reads t = []
                /\ shown Error t
                   = ["ATP match files not found after download. Please try again later."])
               \/ (app_all_files (globbed t) <> []
                   /\ reads t = app_all_files (globbed t)
                   /\ shown Error t = ["No valid CSV files found for loading."]))
       | Raised e => exists f, In f (checked t) /\ In (LReadCsv f None (Raise e)) t
       | Normal df =>
           full_reads t = checked t
           /\ checked t <> []
           /\ rows df = full_tables t ≫= rows
           /\ columns df = unique (full_tables t ≫= columns)
           /\ shown Error t = []
       end).
Proof.
  unfold app_load. every_step. every_step. every_step.
  destruct (app_all_files x) as [| f0 files] eqn:Hfiles; cbn [falsy].
  - repeat every_step. cbn [globbed]. rewrite Hfiles.
    split; [reflexivity |]. split; [reflexivity |]. left.
    split; [reflexivity |]. split; reflexivity.
  - every_step. every_step.
    eapply every_run_mono; [| apply check_all_runs].
    intros o tc (-> & Hcheck & Hreads). cbn [app] in *.
    assert (Hcf : full_reads tc = [])
      by (apply (collect_nil_of_forallb is_check); [by intros [| | | | | ? [] | | [] | | | | |] | done]).
    assert (Hce : shown Error tc = [])
      by (apply (collect_nil_of_forallb is_check); [by intros [| | | | | ? [] | | [] | | | | |] | done]).
    destruct (checked tc) as [| v vs] eqn:Hchecked; cbn [falsy]; repeat every_step.
    + cbn [globbed]. rewrite Hfiles.
      unfold full_reads, checked, shown, reads in *. cbn [collect].
      rewrite !collect_app, Hcf, Hchecked, Hce, Hreads. cbn.
      split; [done |]. split; [done |]. right.
      split; [done |]. split; [by rewrite app_nil_r | reflexivity].
    + eapply every_run_mono; [| apply (read_valid_runs (v :: vs))].
      intros o tr [Hfull Hend].
      assert (Hrc : checked tr = [])
        by (apply (collect_nil_of_forallb is_full_read); [by intros [| | | | | ? [] | | | | | | |] | done]).
      assert (Hre : shown Error tr = [])
        by (apply (collect_nil_of_forallb is_full_read); [by intros [| | | | | ? [] | | | | | | |] | done]).
      assert (Hct : full_tables tc = [])
        by (apply (collect_nil_of_forallb is_check); [by intros [| | | | | ? [] [] | | [] | | | | |] | done]).
      destruct o as [ts | e |]; [| | done].
      * destruct Hend as (Hfr & Hft & Hlen).
        destruct ts as [| d ds]; [discriminate Hlen |].
        cbn [pd_concat lift every_run]. rewrite app_nil_r.
        unfold full_reads, checked, full_tables, shown in *. cbn [collect rows columns].
        rewrite !collect_app, Hcf, Hfr, Hchecked, Hrc, Hct, Hft, Hce, Hre.
        cbn [app]. rewrite app_nil_r. done.
      * destruct Hend as [[rest Hprefix] (g & Hg)]. cbn [every_run].
        exists g. split.
        -- unfold full_reads, checked in *. cbn [collect].
           rewrite collect_app, Hchecked, Hrc, app_nil_r, Hprefix.
           apply in_or_app. left.
           by apply (collect_In _ tr (LReadCsv g None (Raise e))).
        -- right. apply in_or_app. by right.
Qed.

Section AppLoad.
Context {S : Type} (env : forall X : Type, event X -> S -> X * S).



(** X21. The data frame of the app is the concatenation of the files that
    passed the check: in a load that ends normally the files read in full
    are the files that passed the one-row check, in that order, there is at
    least one, no error was shown, and the data frame has the rows of the
    tables read, in order, under the union of their columns; no row is
    dropped. *)
Theorem app_load_concatenates_the_checked_files s df :
  result_of env app_load s = Normal df ->
  full_reads (trace_of env app_load s) = checked (trace_of env app_load s)
  /\ checked (trace_of env app_load s) <> []
  /\ rows df = full_tables (trace_of env app_load s) ≫= rows
  /\ columns df = unique (full_tables (trace_of env app_load s) ≫= columns)
  /\ shown Error (trace_of env app_load s) = [].
Proof.
  intros Hnormal. pose proof (every_run_sound _ _ app_load_runs S env s) as Hrun.
  cbn beta in Hrun. by rewrite Hnormal in Hrun.
Qed.

End AppLoad.



(** An instance of X21: two files in the range. *)
Lemma app_load_concatenates_the_checked_files_witness :
  exists df,
    result_of (sim healthy) app_load
      (primed ["atp_matches_2020.csv"; "atp_matches_2019.csv"]) = Normal df
    /\ rows df = [match_row "Rafael Nadal" "Roger Federer" "Clay" "G";
                  match_row "Roger Federer" "Rafael Nadal" "Grass" "G"]
    /\ full_reads (trace_of (sim healthy) app_load
                     (primed ["atp_matches_2020.csv"; "atp_matches_2019.csv"]))
       = checked (trace_of (sim healthy) app_load
                    (primed ["atp_matches_2020.csv"; "atp_matches_2019.csv"])).
Proof.
  eexists. split; [vm_compute; reflexivity |]. split; [vm_compute; reflexivity |].
  apply (proj1 (app_load_concatenates_the_checked_files (sim healthy)
                  (primed ["atp_matches_2020.csv"; "atp_matches_2019.csv"]) _ eq_refl)).
Defined.

(** ** The whole script *)

Lemma classifier_raised_app_r e t1 t2 : classifier_raised e t2 -> classifier_raised e (t1 ++ t2).
Proof.
  intros [(c & X & y & H) | [(row & H) | (row & H)]].
  - left. exists c, X, y. apply in_or_app. by right.
  - right. left. exists row. apply in_or_app. by right.
  - right. right. exists row. apply in_or_app. by right.
Qed.

(** Loading raises from the read of the secondary file or for a missing
    column, and what it hands over is a data set. *)
Lemma load_and_merge_ends :
  every_run load_and_merge
    (fun o t =>
       (forall e,
          o = Raised e ->
          In (LReadCsv kaggle_file None (Raise e)) t
          \/ exists c, In c match_columns /\ e = "'" ++ c ++ "'")
       /\ (forall df, o = Normal df -> dataset df)).
Proof.
  unfold load_and_merge. repeat every_step.
  all: try (split; [intros e' [= <-]; left; show_in | discriminate]).
  all: eapply every_run_mono; [| apply read_all_spec].
  all: intros o tr (-> & _).
  all: eapply every_run_mono; [| apply assemble_spec].
  all: intros o ta (-> & _).
  all: split; [intros e' He'; right; by eapply merged_raised | intros df Hdf; by eapply merged_dataset].
Qed.

(** On a data set the selectors raise nothing of their own. *)
Lemma selectors_raise df :
  dataset df ->
  every_run (select_and_predict df)
    (fun o t => (forall e, o = Raised e -> classifier_raised e t) /\ o <> Stopped).
Proof.
  intros [Hcols Hfree]. unfold select_and_predict.
  rewrite !getitem_present by (apply Hcols; cbn; tauto).
  script_cbn.
  repeat lazymatch goal with
         | |- every_run (predict _ _ _ _ _) _ =>
             let Hr := fresh "Hraised" in
             let Hs := fresh "Hstop" in
             eapply every_run_mono; [| apply predict_ends];
             intros ? ? (_ & Hr & _ & Hs)
         | |- forall x : option string, _ => intro
         | _ => every_step
         end.
  - split; [| exact Hstop]. intros e He.
    destruct (Hraised e He) as [Hc | (c & Hc & Hmissing & _)].
    + by apply (classifier_raised_app_r e [_; _; _; _; _]).
    + destruct Hmissing. by apply Hcols.
  - split; [discriminate | discriminate].
Qed.

Lemma ends_in_error_app t1 t2 : ends_in_error t2 -> ends_in_error (t1 ++ t2).
Proof.
  intros [msg H]. exists msg. destruct t2 as [| x t2]; [discriminate |].
  by rewrite last_app, H.
Qed.

Lemma ends_in_error_cons x t : ends_in_error t -> ends_in_error (x :: t).
Proof. apply (ends_in_error_app [x]). Qed.

Lemma ends_in_error_here msg : ends_in_error [LSt Error msg].
Proof. by exists msg. Qed.

Ltac error_at_end :=
  repeat first [apply ends_in_error_here | apply ends_in_error_cons | apply ends_in_error_app].

Lemma primary_stops_with_error :
  every_run ensure_primary (fun o t => o = Stopped -> ends_in_error t).
Proof.
  repeat segment_step.
  all: try discriminate.
  all: intros _; error_at_end.
Qed.

Lemma load_and_merge_stops_with_error :
  every_run load_and_merge (fun o t => o = Stopped -> ends_in_error t).
Proof.
  unfold load_and_merge. repeat every_step; try discriminate.
  all: eapply every_run_mono; [| apply read_all_spec].
  all: intros o tr (-> & _).
  all: unfold assemble.
  all: destruct (if (0 <? n_rows _)%nat then _ else _) as [| d ds]; cbn [falsy].
  all: repeat every_step; try (intros _; error_at_end).
  all: cbn [pd_concat lift mbind result_bind]; repeat every_step.
  all: destruct (drop_null_rows _); cbn; discriminate.
Qed.

Lemma every_run_and {A : Type} (p : script A) (Q1 Q2 : outcome A -> list entry -> Prop) :
  every_run p Q1 -> every_run p Q2 -> every_run p (fun o t => Q1 o t /\ Q2 o t).
Proof.
  revert Q1 Q2. induction p as [a | e | | X e k IH]; intros Q1 Q2 H1 H2; cbn in *; auto.
Qed.

(** How the whole script can end other than normally. *)
Lemma main_ends :
  every_run main
    (fun o t =>
       (forall e,
          o = Raised e ->
          In (LListDir "atp_data" (Raise e)) t
          \/ In (LReadCsv kaggle_file None (Raise e)) t
          \/ (exists c, In c match_columns /\ e = "'" ++ c ++ "'")
          \/ classifier_raised e t)
       /\ (o = Stopped -> ends_in_error t)).
Proof.
  unfold main, acquire.
  apply every_run_bind, every_run_bind.
  eapply every_run_mono;
    [| apply every_run_and; [apply only_listdir_escapes | apply primary_stops_with_error]].
  intros o t [Hraise Hstop]. destruct o as [[] | e |].
  - apply every_run_bind. eapply every_run_mono; [| apply secondary_runs].
    intros o' t' (-> & _).
    eapply every_run_mono;
      [| apply every_run_and;
         [apply load_and_merge_ends | apply load_and_merge_stops_with_error]].
    intros o'' t'' [[Hr Hd] Hs]. destruct o'' as [df | e |].
    + eapply every_run_mono; [| apply (selectors_raise df (Hd df eq_refl))].
      intros o3 t3 [Hc Hns]. split; [| by intros ->].
      intros e He. right. right. right. by apply classifier_raised_app_r, Hc.
    + split; [| discriminate]. intros e0 [= <-].
      destruct (Hr e eq_refl) as [Hin | Hkey]; [| by right; right; left].
      right. left. apply in_or_app. right. apply in_or_app. by right.
    + split; [discriminate |]. intros _. by apply ends_in_error_app, ends_in_error_app, Hs.
  - split; [| discriminate]. intros e0 [= <-]. left.
    rewrite (Hraise e eq_refl). show_in.
  - split; [discriminate |]. exact Hstop.
Qed.

Section Whole.
Context {S : Type} (env : forall X : Type, event X -> S -> X * S).


(** X23. The script never stops silently: when a run ends in [st.stop()],
    the last thing it did was to show an error message. *)
Theorem every_stop_follows_an_error s :
  result_of env main s = Stopped -> ends_in_error (trace_of env main s).
Proof. exact (proj2 (every_run_sound _ _ main_ends S env s)). Qed.

End Whole.


(** An instance of X23: the archive cannot be fetched. *)
Lemma every_stop_follows_an_error_witness :
  result_of (sim offline) main blank = Stopped
  /\ ends_in_error (trace_of (sim offline) main blank).
Proof.
  assert (H : result_of (sim offline) main blank = Stopped) by (vm_compute; reflexivity).
  split; [exact H |].
  exact (every_stop_follows_an_error (sim offline) blank H).
Defined.
